(** * Summly: extraction, summarisation and file-name sanitisation

    A shallow embedding of [file_reader.py], [processor.py] and the batch loop
    of [window.py], with the properties of the pipeline proved over it.

    Python values are modelled as follows.
    - [str] is a list of Unicode code points ([N]); [bytes] is a list of
      [Byte.byte].
    - An exception is a class, the text of [str(error)] and the exception
      that was being handled when it was raised ([__context__]).
    - Code that touches the file system, loads the model or calls it runs in
      a state-and-exception monad over a [World] that records those effects.
    - The tokenizer, the generation model, the document parsers and the
      two-byte table of the GBK codec are not part of the repository; they
      are the fields of an environment record [Env].
    - The file system holds regular files, looked up by path (POSIX
      paths).  Logging and garbage collection change no result and are
      left out. *)

From Stdlib Require Import Strings.String Strings.Byte.
From Stdlib Require Import List Bool Arith NArith ZArith Lia RelationClasses.
Import ListNotations.

Local Open Scope N_scope.

(* ------------------------------------------------------------------ *)
(** * The Python runtime: text, bytes, codecs and [re.sub] *)
(* ------------------------------------------------------------------ *)

Module Py.

(** A character is a Unicode code point; a [str] is a sequence of them. *)
Definition char := N.
Definition str := list char.
Definition bytes := list byte.

(** ** The UTF-8 codec (strict error handling) *)

Definition in_range (lo hi c : N) : bool := (lo <=? c) && (c <=? hi).

Definition is_continuation (c : N) : bool := in_range 0x80 0xBF c.

(** Second byte of a three-byte sequence: no overlong forms after [E0],
    no surrogates after [ED]. *)
Definition second_of_three (c0 c1 : N) : bool :=
  if c0 =? 0xE0 then in_range 0xA0 0xBF c1
  else if c0 =? 0xED then in_range 0x80 0x9F c1
  else is_continuation c1.

(** Second byte of a four-byte sequence: no overlong forms after [F0],
    nothing above U+10FFFF after [F4]. *)
Definition second_of_four (c0 c1 : N) : bool :=
  if c0 =? 0xF0 then in_range 0x90 0xBF c1
  else if c0 =? 0xF4 then in_range 0x80 0x8F c1
  else is_continuation c1.

Fixpoint utf8_decode (bs : bytes) : option str :=
  match bs with
  | [] => Some []
  | b0 :: r0 =>
    let c0 := Byte.to_N b0 in
    if c0 <? 0x80 then option_map (cons c0) (utf8_decode r0)
    else if in_range 0xC2 0xDF c0 then
      match r0 with
      | b1 :: r1 =>
        let c1 := Byte.to_N b1 in
        if is_continuation c1
        then option_map (cons ((c0 - 0xC0) * 64 + (c1 - 0x80))) (utf8_decode r1)
        else None
      | _ => None
      end
    else if in_range 0xE0 0xEF c0 then
      match r0 with
      | b1 :: b2 :: r2 =>
        let c1 := Byte.to_N b1 in
        let c2 := Byte.to_N b2 in
        if second_of_three c0 c1 && is_continuation c2
        then option_map
               (cons ((c0 - 0xE0) * 4096 + (c1 - 0x80) * 64 + (c2 - 0x80)))
               (utf8_decode r2)
        else None
      | _ => None
      end
    else if in_range 0xF0 0xF4 c0 then
      match r0 with
      | b1 :: b2 :: b3 :: r3 =>
        let c1 := Byte.to_N b1 in
        let c2 := Byte.to_N b2 in
        let c3 := Byte.to_N b3 in
        if second_of_four c0 c1 && is_continuation c2 && is_continuation c3
        then option_map
               (cons ((c0 - 0xF0) * 262144 + (c1 - 0x80) * 4096
                      + (c2 - 0x80) * 64 + (c3 - 0x80)))
               (utf8_decode r3)
        else None
      | _ => None
      end
    else None
  end.

(** A literal of the Python source.  The source files are UTF-8, and so is
    this one: the literal's bytes are decoded to code points. *)
Definition lit (s : string) : str :=
  match utf8_decode (list_byte_of_string s) with
  | Some l => l
  | None => []
  end.

(** ** [str] methods *)

(** [str.isspace] on one character, which is also what [\s] matches in a
    [str] pattern and what [str.strip] and [str.split] remove. *)
Definition isspace (c : char) : bool :=
  in_range 0x09 0x0D c || in_range 0x1C 0x20 c
  || (c =? 0x85) || (c =? 0xA0) || (c =? 0x1680)
  || in_range 0x2000 0x200A c
  || (c =? 0x2028) || (c =? 0x2029) || (c =? 0x202F)
  || (c =? 0x205F) || (c =? 0x3000).

Fixpoint lstrip (s : str) : str :=
  match s with
  | [] => []
  | c :: r => if isspace c then lstrip r else s
  end.

Fixpoint rstrip (s : str) : str :=
  match s with
  | [] => []
  | c :: r =>
    match rstrip r with
    | [] => if isspace c then [] else [c]
    | r' => c :: r'
    end
  end.

Definition strip (s : str) : str := rstrip (lstrip s).

(** Whether the text starts, or ends, with a whitespace character. *)
Definition starts_with_space (s : str) : bool :=
  match s with
  | c :: _ => isspace c
  | [] => false
  end.

Fixpoint ends_with_space (s : str) : bool :=
  match s with
  | [] => false
  | [c] => isspace c
  | _ :: r => ends_with_space r
  end.

(** [s.split()]: the maximal runs of non-whitespace characters.  [cur]
    holds the word being read, last character first. *)
Fixpoint split_from (cur : str) (s : str) : list str :=
  match s with
  | [] => match cur with [] => [] | _ => [rev cur] end
  | c :: r =>
    if isspace c
    then match cur with
         | [] => split_from [] r
         | _ => rev cur :: split_from [] r
         end
    else split_from (c :: cur) r
  end.

Definition split (s : str) : list str := split_from [] s.

Fixpoint startswith (s prefix : str) : bool :=
  match prefix, s with
  | [], _ => true
  | p :: prefix', c :: s' => (c =? p) && startswith s' prefix'
  | _ :: _, [] => false
  end.

(** [needle in s] *)
Fixpoint contains (s needle : str) : bool :=
  startswith s needle ||
  match s with
  | [] => false
  | _ :: r => contains r needle
  end.

(** [str.lower], on the letters A-Z; every other character is kept.  This
    is [str.lower] on every text whose cased letters are ASCII.  Python
    also lower-cases the cased letters outside ASCII, none of which
    becomes a letter of [.txt], [.docx] or [.doc], the only texts the
    result is compared with: of a suffix with such letters, only the way
    it is written in the text of the unsupported-type error differs. *)
Definition lower_char (c : char) : char :=
  if in_range 0x41 0x5A c then c + 0x20 else c.

Definition lower (s : str) : str := map lower_char s.

(** [repr(s)], as the text of an [OSError] shows a file name.  The quote
    is the apostrophe, or the double quote when the text holds an
    apostrophe and no double quote; the quote and the backslash are
    written with a backslash before them, the tab, line feed and carriage
    return as [\t], [\n] and [\r], and the other ASCII control
    characters as [\xhh].  Python also escapes the characters outside
    ASCII that are not printable; those are kept as they are here. *)
Definition hex_digit (n : N) : char :=
  if n <? 10 then 0x30 + n else 0x57 + n.

Definition repr_char (quote c : char) : str :=
  if (c =? quote) || (c =? 0x5C) then [0x5C; c]
  else if c =? 0x09 then [0x5C; 0x74]
  else if c =? 0x0A then [0x5C; 0x6E]
  else if c =? 0x0D then [0x5C; 0x72]
  else if (c <? 0x20) || (c =? 0x7F)
       then [0x5C; 0x78; hex_digit (c / 16); hex_digit (c mod 16)]
       else [c].

Definition repr (s : str) : str :=
  let quote :=
    if existsb (N.eqb 0x27) s && negb (existsb (N.eqb 0x22) s)
    then 0x22 else 0x27 in
  [quote] ++ flat_map (repr_char quote) s ++ [quote].

(** ** [re.sub]

    A compiled pattern is represented by its matcher: given the text that
    starts at the current position, the length of the match there, if any.
    All three patterns of the program match at least one character, so the
    treatment of empty matches by [re.sub] plays no part.

    [sub_from] scans left to right: at a position where the pattern
    matches, the replacement is emitted and the matched characters are
    skipped; elsewhere the character is copied. *)
Definition pattern := str -> option nat.

Fixpoint sub_from (p : pattern) (repl : str) (skip : nat) (s : str) : str :=
  match s with
  | [] => []
  | c :: r =>
    match skip with
    | S k => sub_from p repl k r
    | O =>
      match p s with
      | Some (S k) => repl ++ sub_from p repl k r
      | _ => c :: sub_from p repl 0 r
      end
    end
  end.

Definition re_sub (p : pattern) (repl : str) (s : str) : str :=
  sub_from p repl 0 s.

(** Length of the longest prefix whose characters all satisfy [f]. *)
Fixpoint run_length (f : char -> bool) (s : str) : nat :=
  match s with
  | c :: r => if f c then S (run_length f r) else O
  | [] => O
  end.

(** [[...]]: one character of the class. *)
Definition re_class (f : char -> bool) : pattern :=
  fun s => match s with
           | c :: _ => if f c then Some 1%nat else None
           | [] => None
           end.

(** [[...]+]: greedy, one or more characters of the class. *)
Definition re_class_plus (f : char -> bool) : pattern :=
  fun s => match run_length f s with
           | O => None
           | n => Some n
           end.

(** What substituting [x] for [[...]+] computes, by structural recursion:
    each run of class characters becomes one [x], emitted at the last
    character of the run ([re_sub_class_plus] below). *)
Fixpoint squeeze (f : char -> bool) (x : char) (s : str) : str :=
  match s with
  | [] => []
  | c :: r =>
    if f c then
      match r with
      | d :: _ => if f d then squeeze f x r else x :: squeeze f x r
      | [] => [x]
      end
    else c :: squeeze f x r
  end.

(** [<[^>]+>]: a [<], then as many characters other than [>] as there are
    (at least one), then a [>].  The greedy run stops at the first [>] or at
    the end of the text, so what follows it is a [>] whenever anything
    follows; giving back characters of the run cannot help, since the
    character after a shorter run is not a [>]. *)
Definition re_tag : pattern :=
  fun s => match s with
           | c :: r =>
             if c =? 0x3C then
               let n := run_length (fun x => negb (x =? 0x3E)) r in
               match n, skipn n r with
               | S _, g :: _ => Some (S (S n))
               | _, _ => None
               end
             else None
           | [] => None
           end.

(** [\x00] and [\s+] of the legacy-document reader. *)
Definition re_nul : pattern := re_class (fun c => c =? 0).
Definition re_spaces : pattern := re_class_plus isspace.

Fixpoint str_eqb (a b : str) : bool :=
  match a, b with
  | [], [] => true
  | x :: a', y :: b' => (x =? y) && str_eqb a' b'
  | _, _ => false
  end.

(** [sep.join(parts)] *)
Fixpoint join (sep : str) (parts : list str) : str :=
  match parts with
  | [] => []
  | [p] => p
  | p :: rest => p ++ sep ++ join sep rest
  end.

(** ** The other codecs of the plain-text reader *)

Inductive codec := UTF8 | GBK | Latin1 | UTF16.

(** GBK: a byte below [0x80] is ASCII; otherwise a lead byte [81..FE] and a
    trail byte [40..FE] other than [7F] are looked up in the codec's
    two-byte table [tbl]. *)
Fixpoint gbk_decode (tbl : N -> N -> option char) (bs : bytes) : option str :=
  match bs with
  | [] => Some []
  | b0 :: r0 =>
    let c0 := Byte.to_N b0 in
    if c0 <? 0x80 then option_map (cons c0) (gbk_decode tbl r0)
    else
      match r0 with
      | b1 :: r1 =>
        let c1 := Byte.to_N b1 in
        if in_range 0x81 0xFE c0 && in_range 0x40 0xFE c1 && negb (c1 =? 0x7F)
        then match tbl c0 c1 with
             | Some ch => option_map (cons ch) (gbk_decode tbl r1)
             | None => None
             end
        else None
      | [] => None
      end
  end.

(** latin-1: every byte is the code point of the same value. *)
Definition latin1_decode (bs : bytes) : str := map Byte.to_N bs.

(** UTF-16 with a byte-order mark; little-endian without one. *)
Fixpoint utf16_units (little : bool) (bs : bytes) : option (list N) :=
  match bs with
  | [] => Some []
  | [_] => None
  | b0 :: b1 :: r =>
    let u := if little then Byte.to_N b0 + 256 * Byte.to_N b1
             else Byte.to_N b1 + 256 * Byte.to_N b0 in
    option_map (cons u) (utf16_units little r)
  end.

Fixpoint utf16_points (us : list N) : option str :=
  match us with
  | [] => Some []
  | u :: r =>
    if in_range 0xD800 0xDBFF u then
      match r with
      | u2 :: r2 =>
        if in_range 0xDC00 0xDFFF u2
        then option_map (cons (0x10000 + (u - 0xD800) * 1024 + (u2 - 0xDC00)))
                        (utf16_points r2)
        else None
      | [] => None
      end
    else if in_range 0xDC00 0xDFFF u then None
    else option_map (cons u) (utf16_points r)
  end.

Definition utf16_body (little : bool) (bs : bytes) : option str :=
  match utf16_units little bs with
  | Some us => utf16_points us
  | None => None
  end.

Definition utf16_decode (bs : bytes) : option str :=
  match bs with
  | b0 :: b1 :: r =>
    if (Byte.to_N b0 =? 0xFF) && (Byte.to_N b1 =? 0xFE) then utf16_body true r
    else if (Byte.to_N b0 =? 0xFE) && (Byte.to_N b1 =? 0xFF) then utf16_body false r
    else utf16_body true bs
  | _ => utf16_body true bs
  end.

Definition decode (tbl : N -> N -> option char) (c : codec) (bs : bytes)
  : option str :=
  match c with
  | UTF8 => utf8_decode bs
  | GBK => gbk_decode tbl bs
  | Latin1 => Some (latin1_decode bs)
  | UTF16 => utf16_decode bs
  end.

(** Text mode with the default [newline=None]: [\r\n] and a lone [\r]
    are read as [\n]. *)
Fixpoint universal_newlines (s : str) : str :=
  match s with
  | [] => []
  | c :: r =>
    if c =? 0x0D then
      match r with
      | c2 :: r2 =>
        if c2 =? 0x0A then 0x0A :: universal_newlines r2
        else 0x0A :: universal_newlines r
      | [] => [0x0A]
      end
    else c :: universal_newlines r
  end.

(** ** Paths ([os.path] and [pathlib], POSIX flavour) *)

Definition slash : char := 0x2F.
Definition dot : char := 0x2E.

(** [s.split('/')]; [cur] is the part being read, last character first. *)
Fixpoint split_slash (cur : str) (s : str) : list str :=
  match s with
  | [] => [rev cur]
  | c :: r => if c =? slash then rev cur :: split_slash [] r
              else split_slash (c :: cur) r
  end.

(** [PurePath.name]: the last component, empty and [.] components dropped. *)
Definition path_name (p : str) : str :=
  last (filter (fun x => negb (str_eqb x []) && negb (str_eqb x [dot]))
               (split_slash [] p)) [].

(** [name.rfind('.')], as the number of characters before the last dot. *)
Fixpoint rfind_dot (s : str) : option nat :=
  match s with
  | [] => None
  | c :: r =>
    match rfind_dot r with
    | Some i => Some (S i)
    | None => if c =? dot then Some O else None
    end
  end.

(** [PurePath.suffix]: from the last dot of the name on, unless that dot is
    the first or the last character of the name. *)
Definition path_suffix (p : str) : str :=
  let name := path_name p in
  match rfind_dot name with
  | Some i =>
    if (0 <? i)%nat && (i <? length name - 1)%nat then skipn i name else []
  | None => []
  end.

(** Number of characters up to and including the last slash. *)
Fixpoint after_last_slash (s : str) : nat :=
  match s with
  | [] => O
  | c :: r =>
    match after_last_slash r with
    | O => if c =? slash then 1%nat else O
    | n => S n
    end
  end.

Fixpoint rstrip_slash (s : str) : str :=
  match s with
  | [] => []
  | c :: r =>
    match rstrip_slash r with
    | [] => if c =? slash then [] else [c]
    | r' => c :: r'
    end
  end.

Definition basename (p : str) : str := skipn (after_last_slash p) p.

Definition dirname (p : str) : str :=
  let head := firstn (after_last_slash p) p in
  match rstrip_slash head with
  | [] => head
  | stripped => stripped
  end.

(** [os.path.join(a, b)] *)
Definition path_join (a b : str) : str :=
  if startswith b [slash] then b
  else match a with
       | [] => b
       | _ => if (last a 0 =? slash) then a ++ b else a ++ [slash] ++ b
       end.

End Py.

(* ------------------------------------------------------------------ *)
(** * Exceptions, effects and the collaborators outside the repository *)
(* ------------------------------------------------------------------ *)

Module Effects.
Import Py.

(** The exception classes the program raises or handles.  All of them are
    subclasses of [Exception]; [LibraryError] stands for whatever a
    collaborator (the tokenizer, the model, a document parser) raises. *)
Inductive exc_class :=
| FileNotFoundError | FileExistsError | ValueError | UnicodeDecodeError
| RuntimeError | LibraryError.

(** [context] is [__context__]: the exception being handled when this one
    was raised inside an [except] block. *)
#[warnings="-register-all"]
Inductive exn :=
| Exception (cls : exc_class) (message : str) (context : option exn).

Definition class_of (e : exn) : exc_class := let (c, _, _) := e in c.
(** [str(error)] *)
Definition str_of (e : exn) : str := let (_, m, _) := e in m.
Definition context_of (e : exn) : option exn := let (_, _, c) := e in c.

Definition class_eqb (a b : exc_class) : bool :=
  match a, b with
  | FileNotFoundError, FileNotFoundError | FileExistsError, FileExistsError
  | ValueError, ValueError | UnicodeDecodeError, UnicodeDecodeError
  | RuntimeError, RuntimeError | LibraryError, LibraryError => true
  | _, _ => false
  end.

Inductive result (A : Type) :=
| Ok (a : A)
| Raise (e : exn).
Arguments Ok {A} a.
Arguments Raise {A} e.

(** A computation over a state [S] that returns a value or raises; the
    state reached when it raises is kept, as Python keeps the assignments
    made before an exception. *)
Definition M (S A : Type) : Type := S -> result A * S.

Definition ret {S A} (a : A) : M S A := fun s => (Ok a, s).

Definition raise {S A} (e : exn) : M S A := fun s => (Raise e, s).

Definition bind {S A B} (m : M S A) (k : A -> M S B) : M S B :=
  fun s => match m s with
           | (Ok a, s') => k a s'
           | (Raise e, s') => (Raise e, s')
           end.

(** [try: m except Exception as e: handler e] *)
Definition try_except {S A} (m : M S A) (handler : exn -> M S A) : M S A :=
  fun s => match m s with
           | (Ok a, s') => (Ok a, s')
           | (Raise e, s') => handler e s'
           end.

Definition gets {S A} (f : S -> A) : M S A := fun s => (Ok (f s), s).

Definition modify {S} (f : S -> S) : M S unit := fun s => (Ok tt, f s).

(** The outcome of a collaborator's call enters the computation. *)
Definition call {S A} (r : result A) : M S A := fun s => (r, s).

Declare Scope py_scope.
Delimit Scope py_scope with py.
Notation "x <- m ;; k" := (bind m (fun x => k))
  (at level 61, m at next level, right associativity) : py_scope.
Notation "m ;; k" := (bind m (fun _ => k))
  (at level 61, right associativity) : py_scope.

(** A float literal [mantissa * 10 ^ exp10]. *)
Inductive pyfloat := Float (mantissa : Z) (exp10 : Z).

(** The keyword arguments of one [model.generate] call; [None] for a
    keyword the call does not pass. *)
Record GenerateKwargs := {
  max_length : option Z;
  min_length : option Z;
  num_beams : option Z;
  early_stopping : option bool;
  no_repeat_ngram_size : option Z;
  length_penalty : option pyfloat;
  repetition_penalty : option pyfloat;
  temperature : option pyfloat;
  do_sample : option bool
}.

Inductive device := cuda | cpu.

Inductive access :=
| OpenText (path : str) (encoding : codec)
| OpenDocx (path : str)
| OpenOle (path : str).

Inductive signal :=
| progress_updated (progress : nat) (filename : str) (outcome : str)
| processing_completed (succeeded failed : nat).

(** What the process has done so far, most recent first in each list.
    [files] is the file system: regular files by path, each of them
    readable.  It holds no directory and no file the process may not
    read, so that a path exists exactly when it is a regular file, and
    opening a file fails only when it is missing. *)
Record World := {
  files : list (str * bytes);
  accesses : list access;
  tokenizer_loads : nat;
  model_loads : nat;
  generate_calls : list (list N * GenerateKwargs);
  emitted : list signal
}.

Definition set_files (f : list (str * bytes)) (w : World) : World :=
  {| files := f; accesses := accesses w;
     tokenizer_loads := tokenizer_loads w; model_loads := model_loads w;
     generate_calls := generate_calls w; emitted := emitted w |}.

Definition log_access (a : access) (w : World) : World :=
  {| files := files w; accesses := a :: accesses w;
     tokenizer_loads := tokenizer_loads w; model_loads := model_loads w;
     generate_calls := generate_calls w; emitted := emitted w |}.

Definition count_tokenizer_load (w : World) : World :=
  {| files := files w; accesses := accesses w;
     tokenizer_loads := S (tokenizer_loads w); model_loads := model_loads w;
     generate_calls := generate_calls w; emitted := emitted w |}.

Definition count_model_load (w : World) : World :=
  {| files := files w; accesses := accesses w;
     tokenizer_loads := tokenizer_loads w; model_loads := S (model_loads w);
     generate_calls := generate_calls w; emitted := emitted w |}.

Definition log_generate (ids : list N) (kw : GenerateKwargs) (w : World) : World :=
  {| files := files w; accesses := accesses w;
     tokenizer_loads := tokenizer_loads w; model_loads := model_loads w;
     generate_calls := (ids, kw) :: generate_calls w; emitted := emitted w |}.

Definition log_signal (sg : signal) (w : World) : World :=
  {| files := files w; accesses := accesses w;
     tokenizer_loads := tokenizer_loads w; model_loads := model_loads w;
     generate_calls := generate_calls w; emitted := sg :: emitted w |}.

(** The collaborators.  A load takes the number of loads made before it and
    a generation the number of generations made before it, so that repeated
    calls may differ (a load can fail once and succeed later; the primary
    pass samples). *)
Record Env := {
  gbk_table : N -> N -> option char;
  (** [Document(path).paragraphs], each paragraph's text *)
  docx_paragraphs : bytes -> result (list str);
  (** [OleFileIO(path)]: the bytes of the [WordDocument] stream, if the
      container has one *)
  ole_WordDocument : bytes -> result (option bytes);
  (** [data.decode('utf-16', errors='replace')], which substitutes U+FFFD
      for what it cannot decode and does not raise *)
  utf16_replace : bytes -> str;
  tokenizer_from_pretrained : nat -> result unit;
  model_from_pretrained : nat -> result unit;
  cuda_is_available : bool;
  model_to : device -> result unit;
  (** [tokenizer(text, max_length=512, truncation=True)] moved to the device *)
  tokenizer_encode : str -> result (list N);
  model_generate : nat -> list N -> GenerateKwargs -> result (list N);
  (** [tokenizer.decode(ids, skip_special_tokens=True, ...)] *)
  tokenizer_decode : list N -> result str
}.

Fixpoint lookup (path : str) (fs : list (str * bytes)) : option bytes :=
  match fs with
  | [] => None
  | (p, data) :: rest => if str_eqb p path then Some data else lookup path rest
  end.

Fixpoint remove (path : str) (fs : list (str * bytes)) : list (str * bytes) :=
  match fs with
  | [] => []
  | (p, data) :: rest =>
    if str_eqb p path then remove path rest else (p, data) :: remove path rest
  end.

(** [os.path.exists], over a file system of regular files. *)
Definition os_path_exists (path : str) : M World bool :=
  gets (fun w => match lookup path (files w) with Some _ => true | None => false end).

(** [os.rename], with the error text of a POSIX system. *)
Definition os_rename (src dst : str) : M World unit :=
  fun w =>
    match lookup src (files w) with
    | None =>
      (Raise (Exception FileNotFoundError
                (lit "[Errno 2] No such file or directory: " ++ repr src
                 ++ lit " -> " ++ repr dst) None), w)
    | Some data =>
      (Ok tt, set_files ((dst, data) :: remove dst (remove src (files w))) w)
    end.

Definition emit (sg : signal) : M World unit := modify (log_signal sg).

(** [m] takes every state to a state related to it by [R], whether it
    returns or raises. *)
Definition preserves {S A} (R : S -> S -> Prop) (m : M S A) : Prop :=
  forall s, R s (snd (m s)).

End Effects.

(* ------------------------------------------------------------------ *)
(** * [file_reader.py] *)
(* ------------------------------------------------------------------ *)

Module FileReader.
Import Py Effects.
Local Open Scope py_scope.

Section WithEnv.
Variable E : Env.

(** [with open(file_path, "r", encoding=encoding) as f: f.read()].  On a
    file system of readable regular files, [open] fails only for a
    missing file.  The text of the [UnicodeDecodeError] is only ever
    logged by the caller. *)
Definition open_read (file_path : str) (encoding : codec) : M World str :=
  fun w =>
    let w' := log_access (OpenText file_path encoding) w in
    match lookup file_path (files w) with
    | None =>
      (Raise (Exception FileNotFoundError
                (lit "[Errno 2] No such file or directory: " ++ repr file_path) None),
       w')
    | Some data =>
      match decode (gbk_table E) encoding data with
      | Some text => (Ok (universal_newlines text), w')
      | None =>
        (Raise (Exception UnicodeDecodeError
                  (lit "codec can't decode bytes") None), w')
      end
    end.

Definition encodings : list codec := [UTF8; GBK; Latin1; UTF16].

(** The loop of [_read_txt] over the encodings still to try. *)
Fixpoint try_encodings (file_path : str) (todo : list codec) : M World str :=
  match todo with
  | [] => raise (Exception ValueError (lit "无法解码文件: " ++ file_path) None)
  | encoding :: rest =>
    try_except (open_read file_path encoding)
      (fun ude =>
         match class_of ude with
         | UnicodeDecodeError => try_encodings file_path rest
         | _ => raise ude
         end)
  end.

Definition _read_txt (file_path : str) : M World str :=
  try_encodings file_path encodings.

Definition _read_docx (file_path : str) : M World str :=
  try_except
    (modify (log_access (OpenDocx file_path)) ;;
     data <- gets (fun w => lookup file_path (files w)) ;;
     match data with
     | None =>
       raise (Exception LibraryError
                (lit "Package not found at '" ++ file_path ++ lit "'") None)
     | Some data =>
       paragraphs <- call (docx_paragraphs E data) ;;
       ret (join [0x0A] paragraphs)
     end)
    (fun error => raise error).

Definition _read_doc (file_path : str) : M World str :=
  try_except
    (modify (log_access (OpenOle file_path)) ;;
     data <- gets (fun w => lookup file_path (files w)) ;;
     match data with
     | None =>
       raise (Exception FileNotFoundError
                (lit "[Errno 2] No such file or directory: " ++ repr file_path) None)
     | Some data =>
       stream <- call (ole_WordDocument E data) ;;
       match stream with
       | None => raise (Exception ValueError (lit "文件不是有效的Word文档") None)
       | Some doc_data =>
         let text := utf16_replace E doc_data in
         let text := re_sub re_nul [] text in
         let text := re_sub re_spaces [0x20] text in
         ret (strip text)
       end
     end)
    (fun error => raise error).

Definition read_file (file_path : str) : M World str :=
  present <- os_path_exists file_path ;;
  if negb present
  then raise (Exception FileNotFoundError (lit "文件不存在: " ++ file_path) None)
  else
    let suffix := lower (path_suffix file_path) in
    if str_eqb suffix (lit ".txt") then _read_txt file_path
    else if str_eqb suffix (lit ".docx") then _read_docx file_path
    else if str_eqb suffix (lit ".doc") then _read_doc file_path
    else raise (Exception ValueError (lit "不支持的文件类型: " ++ suffix) None).

End WithEnv.
End FileReader.

(* ------------------------------------------------------------------ *)
(** * [processor.py] *)
(* ------------------------------------------------------------------ *)

Module TextProcessor.
Import Py Effects.
Local Open Scope py_scope.

(** The characters of the class [FILENAME_SPECIAL_CHARS], its brackets and
    escapes left out; code point 34 is the double quote.  The backslashes
    of the pattern only escape the slash and the two square brackets. *)
Definition FILENAME_SPECIAL_CHARS : list char :=
  lit "/:*?" ++ [34] ++ lit "<>|%#$@!^&()[]{};`,.~+=。，？！".

Definition LANGUAGE_PREFIXES : list (str * str) :=
  [ (lit "en", lit "summarize English: ");
    (lit "zh", lit "总结中文: ");
    (lit "fr", lit "résume en français: ");
    (lit "es", lit "resumir en español: ");
    (lit "de", lit "fasse zusammen auf Deutsch: ");
    (lit "ru", lit "сделать резюме на русском: ");
    (lit "ja", lit "日本語で要約してください: ");
    (lit "ko", lit "한국어로 요약: ");
    (lit "ar", lit "لخص بالعربية: ");
    (lit "it", lit "riassumi in italiano: ") ].

(** [d.get(key, default)] *)
Fixpoint dict_get (d : list (str * str)) (key : str) (default : str) : str :=
  match d with
  | [] => default
  | (k, v) :: rest => if str_eqb k key then v else dict_get rest key default
  end.

(** The instance attributes set by [__init__] and [load_model].  A loaded
    tokenizer or model is identified by the serial number of the load that
    created it. *)
Record Processor := {
  model : option nat;
  tokenizer : option nat;
  device_of : option device
}.

(** [TextProcessor()] *)
Definition init : Processor :=
  {| model := None; tokenizer := None; device_of := None |}.

(** What a method of [TextProcessor] acts on: the instance and the world. *)
Record State := { self : Processor; world : World }.

(** A computation on the world, run from inside a method. *)
Definition lift {A} (m : M World A) : M State A :=
  fun st => let (r, w) := m (world st) in (r, {| self := self st; world := w |}).

(** Runs a method on a given instance and drops the instance afterwards. *)
Definition with_processor {A} (p : Processor) (m : M State A) : M World A :=
  fun w => let (r, st) := m {| self := p; world := w |} in (r, world st).

Definition set_self (f : Processor -> Processor) : M State unit :=
  modify (fun st => {| self := f (self st); world := world st |}).

Definition is_special (c : char) : bool :=
  existsb (N.eqb c) FILENAME_SPECIAL_CHARS.

Definition is_hyphen_or_space (c : char) : bool := (c =? 0x2D) || isspace c.

Definition special_chars_pattern : pattern := re_class is_special.
(** [[-\s]+] *)
Definition consecutive_spaces_pattern : pattern := re_class_plus is_hyphen_or_space.

Definition MAX_FILENAME_LENGTH : nat := 200.

Definition clean_filename (text : str) : str :=
  let cleaned_text := re_sub re_tag [] text in
  let cleaned_text := re_sub special_chars_pattern [] cleaned_text in
  let cleaned_text := strip (re_sub consecutive_spaces_pattern [0x20] cleaned_text) in
  if (MAX_FILENAME_LENGTH <? length cleaned_text)%nat
  then rstrip (firstn MAX_FILENAME_LENGTH cleaned_text)
  else cleaned_text.

(** [self.LANGUAGE_PREFIXES.get(language, self.LANGUAGE_PREFIXES["en"])] *)
Definition language_prefix (language : str) : str :=
  dict_get LANGUAGE_PREFIXES language
           (dict_get LANGUAGE_PREFIXES (lit "en") []).

(** The step of [generate_summary] that removes an echoed prompt prefix:
    [if raw_summary.startswith(summary_prefix):
       raw_summary = raw_summary[len(summary_prefix):].strip()] *)
Definition remove_prefix (summary_prefix raw_summary : str) : str :=
  if startswith raw_summary summary_prefix
  then strip (skipn (List.length summary_prefix) raw_summary)
  else raw_summary.

(** [len(text.split())] *)
Definition word_count (text : str) : nat := List.length (split text).

(** [raise RuntimeError(f"{label}{str(error)}")] inside the handler of
    [error]. *)
Definition wrap (label : str) (error : exn) : exn :=
  Exception RuntimeError (label ++ str_of error) (Some error).

Section WithEnv.
Variable E : Env.

Definition load_model : M State unit :=
  st <- gets (fun st => self st) ;;
  match model st, tokenizer st with
  | Some _, Some _ => ret tt
  | _, _ =>
    try_except
      (n <- gets (fun st => tokenizer_loads (world st)) ;;
       lift (modify count_tokenizer_load) ;;
       call (tokenizer_from_pretrained E n) ;;
       set_self (fun p => {| model := model p; tokenizer := Some (S n);
                             device_of := device_of p |}) ;;
       k <- gets (fun st => model_loads (world st)) ;;
       lift (modify count_model_load) ;;
       call (model_from_pretrained E k) ;;
       set_self (fun p => {| model := Some (S k); tokenizer := tokenizer p;
                             device_of := device_of p |}) ;;
       let dev := if cuda_is_available E then cuda else cpu in
       set_self (fun p => {| model := model p; tokenizer := tokenizer p;
                             device_of := Some dev |}) ;;
       call (model_to E dev))
      (fun error => raise (wrap (lit "模型加载失败: ") error))
  end.

(** [self.model.generate(..., **kwargs)] under [torch.no_grad()] *)
Definition generate (input_ids : list N) (kwargs : GenerateKwargs)
  : M State (list N) :=
  n <- gets (fun st => List.length (generate_calls (world st))) ;;
  lift (modify (log_generate input_ids kwargs)) ;;
  call (model_generate E n input_ids kwargs).

Definition generation_params (max_len min_len : Z) : GenerateKwargs :=
  {| max_length := Some max_len;
     min_length := Some min_len;
     num_beams := Some 4%Z;
     early_stopping := Some true;
     no_repeat_ngram_size := Some 3%Z;
     length_penalty := Some (Float 20 (-1));
     repetition_penalty := Some (Float 15 (-1));
     temperature := Some (Float 7 (-1));
     do_sample := Some true |}.

(** The keyword arguments of the second [generate] call. *)
Definition fallback_params (max_len : Z) : GenerateKwargs :=
  {| max_length := Some max_len;
     min_length := None;
     num_beams := Some 1%Z;
     early_stopping := Some true;
     no_repeat_ngram_size := None;
     length_penalty := None;
     repetition_penalty := None;
     temperature := None;
     do_sample := None |}.

Definition generate_summary (text : str) (max_len min_len : Z) (language : str)
  : M State str :=
  load_model ;;
  let summary_prefix := language_prefix language in
  let input_text := summary_prefix ++ text in
  try_except
    (input_encoding <- call (tokenizer_encode E input_text) ;;
     summary_ids <- generate input_encoding (generation_params max_len min_len) ;;
     raw_summary <- call (tokenizer_decode E summary_ids) ;;
     let raw_summary := remove_prefix summary_prefix raw_summary in
     let word_count := word_count raw_summary in
     if (word_count <? 3)%nat then
       try_except
         (fallback_ids <- generate input_encoding (fallback_params max_len) ;;
          fallback_summary <- call (tokenizer_decode E fallback_ids) ;;
          let fallback_word_count := TextProcessor.word_count fallback_summary in
          if (word_count <? fallback_word_count)%nat
          then ret fallback_summary
          else ret raw_summary)
         (fun fallback_error => ret raw_summary)
     else ret raw_summary)
    (fun error => raise (wrap (lit "摘要生成失败: ") error)).

(** [**summary_kwargs]: the keywords [generate_summary] accepts. *)
Record SummaryKwargs := {
  kw_max_length : option Z;
  kw_min_length : option Z
}.

Definition no_kwargs : SummaryKwargs :=
  {| kw_max_length := None; kw_min_length := None |}.

Definition or_default (o : option Z) (d : Z) : Z :=
  match o with Some v => v | None => d end.

Definition process_file (file_path language : str) (summary_kwargs : SummaryKwargs)
  : M State str :=
  try_except
    (file_content <- lift (FileReader.read_file E file_path) ;;
     raw_summary <- generate_summary file_content
                      (or_default (kw_max_length summary_kwargs) 30)
                      (or_default (kw_min_length summary_kwargs) 10)
                      language ;;
     ret (clean_filename raw_summary))
    (fun error => raise (wrap (lit "文件处理失败: ") error)).

End WithEnv.
End TextProcessor.

(* ------------------------------------------------------------------ *)
(** * [window.py]: the batch loop of [FileProcessingThread] *)
(* ------------------------------------------------------------------ *)

Module FileProcessingThread.
Import Py Effects.
Local Open Scope py_scope.

Section WithEnv.
Variable E : Env.

(** One iteration of the loop of [run]; the result is the new
    [success_count]. *)
Definition run_one (index : nat) (file_path : str) (success_count : nat)
  : M World nat :=
  let filename := basename file_path in
  try_except
    (new_name <- TextProcessor.with_processor TextProcessor.init
                   (TextProcessor.process_file E file_path (lit "en")
                                               TextProcessor.no_kwargs) ;;
     let file_ext := lower (path_suffix file_path) in
     let new_name_with_ext := new_name ++ file_ext in
     let file_dir := dirname file_path in
     let new_file_path := path_join file_dir new_name_with_ext in
     present <- os_path_exists new_file_path ;;
     if present
     then raise (Exception FileExistsError
                   (lit "文件 " ++ new_name_with_ext ++ lit " 已存在") None)
     else
       os_rename file_path new_file_path ;;
       emit (progress_updated (index + 1) filename new_name_with_ext) ;;
       ret (S success_count))
    (fun e =>
       emit (progress_updated (index + 1) filename (lit "错误: " ++ str_of e)) ;;
       ret success_count).

Fixpoint run_from (index : nat) (file_paths : list str) (success_count : nat)
  : M World nat :=
  match file_paths with
  | [] => ret success_count
  | file_path :: rest =>
    success_count <- run_one index file_path success_count ;;
    run_from (S index) rest success_count
  end.

Definition run (file_paths : list str) : M World unit :=
  let total_files := List.length file_paths in
  success_count <- run_from 0 file_paths 0 ;;
  emit (processing_completed success_count (total_files - success_count)).

End WithEnv.
End FileProcessingThread.

(* ------------------------------------------------------------------ *)
(** * A deterministic stand-in for the collaborators *)
(* ------------------------------------------------------------------ *)

Module Stub.
Import Py Effects.

(** Every load succeeds, no accelerator is present, every text is encoded
    as the same input, the [n]-th generation returns the token [n], and
    the tokenizer decodes token [0] (the first generation of the process)
    as [primary] and any other output as [fallback]. *)
Definition env (primary fallback : result str) : Env :=
  {| gbk_table := fun _ _ => None;
     docx_paragraphs := fun _ => Ok [];
     ole_WordDocument := fun _ => Ok None;
     utf16_replace := fun _ => [];
     tokenizer_from_pretrained := fun _ => Ok tt;
     model_from_pretrained := fun _ => Ok tt;
     cuda_is_available := false;
     model_to := fun _ => Ok tt;
     tokenizer_encode := fun _ => Ok [];
     model_generate := fun n _ _ => Ok [N.of_nat n];
     tokenizer_decode := fun ids =>
       match ids with
       | [0] => primary
       | _ => fallback
       end |}.

(** A world in which nothing has happened yet, over the given files. *)
Definition fresh_world (fs : list (str * bytes)) : World :=
  {| files := fs; accesses := []; tokenizer_loads := 0; model_loads := 0;
     generate_calls := []; emitted := [] |}.

(** A new [TextProcessor] in a fresh world. *)
Definition fresh_state (fs : list (str * bytes)) : TextProcessor.State :=
  {| TextProcessor.self := TextProcessor.init;
     TextProcessor.world := fresh_world fs |}.

End Stub.

(* ------------------------------------------------------------------ *)
(** * The notions the properties are stated with *)
(* ------------------------------------------------------------------ *)

Module Notions.
Import Py Effects TextProcessor Stub.

(** ** The sanitiser *)

Definition starts_with_separator (s : str) : bool :=
  match s with
  | c :: _ => is_hyphen_or_space c
  | [] => false
  end.

(** Every hyphen or whitespace character of the text is a space, and what
    follows it is neither: the shape the collapsing step leaves. *)
Fixpoint spaced (s : str) : Prop :=
  match s with
  | [] => True
  | c :: r =>
    (is_hyphen_or_space c = true -> c = 0x20 /\ starts_with_separator r = false)
    /\ spaced r
  end.

(** What the four steps establish together. *)
Record safe (s : str) : Prop := {
  safe_chars : Forall (fun c => is_special c = false) s;
  safe_spaced : spaced s;
  safe_start : starts_with_space s = false;
  safe_end : ends_with_space s = false;
  safe_length : (length s <= MAX_FILENAME_LENGTH)%nat
}.

(** The text before the length check. *)
Definition collapsed (text : str) : str :=
  strip (squeeze is_hyphen_or_space 0x20
           (filter (fun c => negb (is_special c)) (re_sub re_tag [] text))).

(** ** The plain-text reader *)

(** The encodings with which [open] was called on [file_path], most recent
    first, between the worlds [w] and [w']. *)
Definition opened_with (file_path : str) (tried : list codec) (w w' : World)
  : Prop :=
  accesses w' = map (OpenText file_path) tried ++ accesses w.

(** The UTF-16 encoding of [hi], with its byte-order mark. *)
Definition hi_utf16 : bytes := [xff; xfe; x68; x00; x69; x00].

(** ** The model handle *)

(** Both the model and the tokenizer of the instance are set. *)
Definition loaded (p : Processor) : Prop :=
  exists m t, model p = Some m /\ tokenizer p = Some t.

(** No tokenizer and no weights were loaded between two worlds. *)
Definition same_loads (w w' : World) : Prop :=
  tokenizer_loads w' = tokenizer_loads w /\ model_loads w' = model_loads w.

(** The instance holds the same handle and nothing was loaded. *)
Definition same_handle (st st' : State) : Prop :=
  self st' = self st /\ same_loads (world st) (world st').

(** A call of one of the public methods on an instance. *)
Inductive method_call (E : Env) : State -> State -> Prop :=
| call_load_model st :
    method_call E st (snd (load_model E st))
| call_generate_summary text max_len min_len language st :
    method_call E st (snd (generate_summary E text max_len min_len language st))
| call_process_file file_path language kwargs st :
    method_call E st (snd (process_file E file_path language kwargs st)).

(** Any number of calls, one after the other, on the same instance. *)
Inductive method_calls (E : Env) : State -> State -> Prop :=
| calls_none st : method_calls E st st
| calls_then st st' st'' :
    method_call E st st' -> method_calls E st' st'' -> method_calls E st st''.

(** Two text files and a stand-in whose summaries have three words. *)
Definition two_files : list (str * bytes) :=
  [(lit "/docs/a.txt", [x61]); (lit "/docs/b.txt", [x62])].

Definition three_words : Env :=
  env (Ok (lit "quarterly sales report")) (Ok (lit "annual sales report")).

(** The instance after its first [load_model]. *)
Definition warm : State := snd (load_model three_words (fresh_state two_files)).

(** ** The two generation passes *)

(** The state after one more logged [generate] call. *)
Definition logged (ids : list N) (kw : GenerateKwargs) (st : State) : State :=
  {| self := self st; world := log_generate ids kw (world st) |}.

(** The primary result: the primary decode [raw] without an echoed prefix. *)
Definition primary (language raw : str) : str :=
  remove_prefix (language_prefix language) raw.

(** The state after the primary pass. *)
Definition after_primary (E : Env) (max_len min_len : Z) (st : State)
    (ids : list N) : State :=
  logged ids (generation_params max_len min_len) (snd (load_model E st)).

(** The stand-in whose primary pass decodes to the empty text. *)
Definition empty_primary (fallback : str) : Env := env (Ok []) (Ok fallback).

End Notions.

(* ------------------------------------------------------------------ *)
(** * The UTF-8 encoder, for round trips through the reader *)
(* ------------------------------------------------------------------ *)

Module Utf8.
Import Py.

(** The byte of value [n], for [n] below 256. *)
Definition byte_of (n : N) : byte :=
  match Byte.of_N n with
  | Some b => b
  | None => x00
  end.

(** A Unicode scalar value: a code point up to U+10FFFF that is not a
    surrogate.  These are the characters [str.encode('utf-8')] accepts. *)
Definition is_scalar (c : char) : bool :=
  (c <? 0xD800) || in_range 0xE000 0x10FFFF c.

(** [chr(c).encode('utf-8')] *)
Definition utf8_encode_char (c : char) : bytes :=
  if c <? 0x80 then [byte_of c]
  else if c <? 0x800 then
    [byte_of (0xC0 + c / 64); byte_of (0x80 + c mod 64)]
  else if c <? 0x10000 then
    [byte_of (0xE0 + c / 4096); byte_of (0x80 + (c / 64) mod 64);
     byte_of (0x80 + c mod 64)]
  else
    [byte_of (0xF0 + c / 262144); byte_of (0x80 + (c / 4096) mod 64);
     byte_of (0x80 + (c / 64) mod 64); byte_of (0x80 + c mod 64)].

(** [s.encode('utf-8')] *)
Definition utf8_encode (s : str) : bytes := flat_map utf8_encode_char s.

End Utf8.

(* ------------------------------------------------------------------ *)
(** * Further notions *)
(* ------------------------------------------------------------------ *)

Module MoreNotions.
Import Py Effects TextProcessor Stub.

(** Every character of the class [f] in the text is [x] and is followed by
    a character outside the class, or by the end: what substituting [x]
    for the runs of the class leaves. *)
Fixpoint separated (f : char -> bool) (x : char) (s : str) : Prop :=
  match s with
  | [] => True
  | c :: r =>
    (f c = true ->
     c = x /\ match r with d :: _ => f d = false | [] => True end)
    /\ separated f x r
  end.

(** A stand-in whose legacy documents hold the given stream, decoded as
    the latin-1 reading of its bytes. *)
Definition with_stream (stream : option bytes) : Env :=
  {| gbk_table := fun _ _ => None;
     docx_paragraphs := fun _ => Ok [];
     ole_WordDocument := fun _ => Ok stream;
     utf16_replace := latin1_decode;
     tokenizer_from_pretrained := fun _ => Ok tt;
     model_from_pretrained := fun _ => Ok tt;
     cuda_is_available := false;
     model_to := fun _ => Ok tt;
     tokenizer_encode := fun _ => Ok [];
     model_generate := fun n _ _ => Ok [N.of_nat n];
     tokenizer_decode := fun _ => Ok [] |}.

(** The collaborators [E] with another outcome for moving the model to
    the device, and with another outcome for loading the weights. *)
Definition with_model_to (f : device -> result unit) (E : Env) : Env :=
  {| gbk_table := gbk_table E;
     docx_paragraphs := docx_paragraphs E;
     ole_WordDocument := ole_WordDocument E;
     utf16_replace := utf16_replace E;
     tokenizer_from_pretrained := tokenizer_from_pretrained E;
     model_from_pretrained := model_from_pretrained E;
     cuda_is_available := cuda_is_available E;
     model_to := f;
     tokenizer_encode := tokenizer_encode E;
     model_generate := model_generate E;
     tokenizer_decode := tokenizer_decode E |}.

Definition with_model_from_pretrained (f : nat -> result unit) (E : Env) : Env :=
  {| gbk_table := gbk_table E;
     docx_paragraphs := docx_paragraphs E;
     ole_WordDocument := ole_WordDocument E;
     utf16_replace := utf16_replace E;
     tokenizer_from_pretrained := tokenizer_from_pretrained E;
     model_from_pretrained := f;
     cuda_is_available := cuda_is_available E;
     model_to := model_to E;
     tokenizer_encode := tokenizer_encode E;
     model_generate := model_generate E;
     tokenizer_decode := tokenizer_decode E |}.

(** Between two worlds nothing but reading happened: the files, the
    signals, the loads and the generation log are the same. *)
Definition only_reads (w w' : World) : Prop :=
  files w' = files w /\ emitted w' = emitted w
  /\ tokenizer_loads w' = tokenizer_loads w
  /\ model_loads w' = model_loads w
  /\ generate_calls w' = generate_calls w.

(** Between two states the files and the signals are the same. *)
Definition keeps_files (st st' : State) : Prop :=
  files (world st') = files (world st)
  /\ emitted (world st') = emitted (world st).

(** The progress signals of a batch: one for each file, numbered from
    [index + 1], with the file's base name and its outcome. *)
Fixpoint progress_list (index : nat) (file_paths outcomes : list str)
  : list signal :=
  match file_paths, outcomes with
  | p :: ps, o :: os =>
    progress_updated (index + 1) (basename p) o :: progress_list (S index) ps os
  | _, _ => []
  end.

(** What [process_file] does for one file of the batch, on a new
    [TextProcessor]. *)
Definition processed (E : Env) (file_path : str) (w : World)
  : result str * State :=
  process_file E file_path (lit "en") no_kwargs
               {| self := init; world := w |}.

(** The name a file of the batch gets, and where it goes. *)
Definition new_name_of (file_path new_name : str) : str :=
  new_name ++ lower (path_suffix file_path).

Definition target_of (file_path new_name : str) : str :=
  path_join (dirname file_path) (new_name_of file_path new_name).

End MoreNotions.

(* ------------------------------------------------------------------ *)
(** * [window.py]: the file queue and the result list of [SummlyApp] *)
(* ------------------------------------------------------------------ *)

Module SummlyApp.
Import Py Effects.

(** [Qt.GlobalColor], the colours the window uses. *)
Inductive colour := gray | red | white.

(** A [QListWidgetItem]: its text and the foreground set on it, if any. *)
Record Item := { item_text : str; foreground : option colour }.







(** [result_item.setText(result)] and the colour chosen for it: red for
    a text that starts with the error mark, white otherwise. *)
Definition shown_item (outcome : str) : Item :=
  {| item_text := outcome;
     foreground :=
       Some (if startswith outcome (lit "错误:") then red else white) |}.



End SummlyApp.

(* ------------------------------------------------------------------ *)
(** * Properties of the runtime functions *)
(* ------------------------------------------------------------------ *)

Module PyFacts.
Import Py.

(** ** [re.sub] *)

Lemma sub_from_skip (p : pattern) (repl : str) (s : str) :
  forall k, sub_from p repl k s = sub_from p repl 0 (skipn k s).
Proof.
  induction s as [|c r IH]; intros [|k]; try reflexivity.
  simpl. apply IH.
Qed.

(** The unfolding of [re.sub] at the first character. *)
Lemma re_sub_cons (p : pattern) (repl : str) (c : char) (r : str) :
  re_sub p repl (c :: r) =
  match p (c :: r) with
  | Some (S k) => repl ++ re_sub p repl (skipn k r)
  | _ => c :: re_sub p repl r
  end.
Proof.
  unfold re_sub. simpl.
  destruct (p (c :: r)) as [[|k]|]; try reflexivity.
  now rewrite sub_from_skip.
Qed.

(** Removing the characters of a class is filtering. *)
Lemma re_sub_class_delete (f : char -> bool) (s : str) :
  re_sub (re_class f) [] s = filter (fun c => negb (f c)) s.
Proof.
  induction s as [|c r IH]; [reflexivity|].
  rewrite re_sub_cons. simpl.
  destruct (f c); simpl; now rewrite IH.
Qed.

Lemma re_class_plus_cons (f : char -> bool) (c : char) (r : str) :
  re_class_plus f (c :: r) = if f c then Some (S (run_length f r)) else None.
Proof. unfold re_class_plus. simpl. now destruct (f c). Qed.

Lemma re_sub_class_plus (f : char -> bool) (x : char) (s : str) :
  re_sub (re_class_plus f) [x] s = squeeze f x s.
Proof.
  induction s as [|c r IH]; [reflexivity|].
  rewrite re_sub_cons, re_class_plus_cons. simpl squeeze.
  destruct (f c) eqn:Hc.
  - destruct r as [|d r'].
    + reflexivity.
    + rewrite <- IH. simpl run_length.
      destruct (f d) eqn:Hd.
      * rewrite (re_sub_cons _ _ d r'), re_class_plus_cons, Hd. reflexivity.
      * reflexivity.
  - now rewrite IH.
Qed.

(** A text without [<] has no tag to remove. *)
Lemma re_sub_tag_none (s : str) :
  Forall (fun c => c <> 0x3C) s -> re_sub re_tag [] s = s.
Proof.
  induction 1 as [|c r Hc _ IH]; [reflexivity|].
  rewrite re_sub_cons. simpl.
  apply N.eqb_neq in Hc. rewrite Hc. now rewrite IH.
Qed.

(** ** [strip] *)

Lemma lstrip_suffix (s : str) : exists a, s = a ++ lstrip s.
Proof.
  induction s as [|c r [a IH]]; [now exists []|].
  simpl. destruct (isspace c).
  - exists (c :: a). simpl. now f_equal.
  - now exists [].
Qed.

Lemma rstrip_prefix (s : str) : exists b, s = rstrip s ++ b.
Proof.
  induction s as [|c r [b IH]]; [now exists []|].
  simpl. destruct (rstrip r) as [|d r'] eqn:Hr.
  - destruct (isspace c).
    + exists (c :: r). reflexivity.
    + exists b. simpl in *. now f_equal.
  - exists b. simpl in *. now f_equal.
Qed.

Lemma lstrip_start (s : str) : starts_with_space (lstrip s) = false.
Proof.
  induction s as [|c r IH]; [reflexivity|].
  simpl. destruct (isspace c) eqn:Hc; [exact IH|]. simpl. exact Hc.
Qed.

Lemma rstrip_end (s : str) : ends_with_space (rstrip s) = false.
Proof.
  induction s as [|c r IH]; [reflexivity|].
  simpl. destruct (rstrip r) as [|d r'] eqn:Hr.
  - destruct (isspace c) eqn:Hc; simpl; [reflexivity | exact Hc].
  - exact IH.
Qed.

(** [rstrip] keeps a first character that is not whitespace. *)
Lemma rstrip_start (s : str) :
  starts_with_space s = false -> starts_with_space (rstrip s) = false.
Proof.
  destruct s as [|c r]; [reflexivity|].
  simpl. intros Hc. destruct (rstrip r); [rewrite Hc|]; simpl; exact Hc.
Qed.

Lemma rstrip_length (s : str) : (length (rstrip s) <= length s)%nat.
Proof.
  destruct (rstrip_prefix s) as [b Hb].
  rewrite Hb at 2. rewrite length_app. lia.
Qed.

Lemma lstrip_fixed (s : str) : starts_with_space s = false -> lstrip s = s.
Proof.
  destruct s as [|c r]; [reflexivity|]. simpl. now intros ->.
Qed.

Lemma rstrip_fixed (s : str) : ends_with_space s = false -> rstrip s = s.
Proof.
  induction s as [|c r IH]; [reflexivity|].
  simpl. destruct r as [|d r'].
  - simpl. now intros ->.
  - intros H. rewrite (IH H). reflexivity.
Qed.

Lemma strip_fixed (s : str) :
  starts_with_space s = false -> ends_with_space s = false -> strip s = s.
Proof.
  intros Hs He. unfold strip. rewrite (lstrip_fixed s Hs). now apply rstrip_fixed.
Qed.

Lemma strip_start (s : str) : starts_with_space (strip s) = false.
Proof. apply rstrip_start, lstrip_start. Qed.

Lemma strip_end (s : str) : ends_with_space (strip s) = false.
Proof. apply rstrip_end. Qed.

(** [strip s] is [s] without a prefix and a suffix. *)
Lemma strip_middle (s : str) : exists a b, s = a ++ strip s ++ b.
Proof.
  destruct (lstrip_suffix s) as [a Ha].
  destruct (rstrip_prefix (lstrip s)) as [b Hb].
  exists a, b. unfold strip. now rewrite <- Hb.
Qed.

End PyFacts.

(* ------------------------------------------------------------------ *)
(** * The sanitiser: [clean_filename] *)
(* ------------------------------------------------------------------ *)

Module Sanitizer.
Import Py PyFacts TextProcessor Notions.

Lemma squeeze_spaced (s : str) : spaced (squeeze is_hyphen_or_space 0x20 s).
Proof.
  induction s as [|c r IH]; [exact I|].
  simpl. destruct (is_hyphen_or_space c) eqn:Hc.
  - destruct r as [|d r'].
    + simpl. auto.
    + destruct (is_hyphen_or_space d) eqn:Hd; [exact IH|].
      split; [|exact IH].
      intros _. split; [reflexivity|].
      simpl. rewrite Hd. simpl. exact Hd.
  - split; [|exact IH]. intros H. simpl in H. congruence.
Qed.

Lemma spaced_app_r (a b : str) : spaced (a ++ b) -> spaced b.
Proof. induction a as [|c a IH]; simpl; [auto|]. intros [_ H]. auto. Qed.

Lemma spaced_app_l (a b : str) : spaced (a ++ b) -> spaced a.
Proof.
  induction a as [|c a IH]; simpl; [auto|].
  intros [Hc H]. split; [|auto].
  intros Hs. destruct (Hc Hs) as [-> Hn]. split; [reflexivity|].
  destruct a; [reflexivity | exact Hn].
Qed.

Lemma spaced_fixed (s : str) :
  spaced s -> squeeze is_hyphen_or_space 0x20 s = s.
Proof.
  induction s as [|c r IH]; [reflexivity|].
  intros [Hc Hr]. simpl squeeze. rewrite (IH Hr).
  destruct (is_hyphen_or_space c) eqn:Hs; [|reflexivity].
  destruct (Hc eq_refl) as [-> Hn].
  destruct r as [|d r']; [reflexivity|].
  simpl in Hn. now rewrite Hn.
Qed.

(** In a spaced text every hyphen-or-whitespace character is the space. *)
Lemma spaced_separators (s : str) :
  spaced s -> Forall (fun c => is_hyphen_or_space c = true -> c = 0x20) s.
Proof.
  induction s as [|c r IH]; [constructor|].
  intros [Hc Hr]. constructor; [|auto].
  intros H. now destruct (Hc H).
Qed.

Lemma filter_fixed (f : char -> bool) (s : str) :
  Forall (fun c => f c = true) s -> filter f s = s.
Proof.
  induction 1 as [|c r Hc _ IH]; [reflexivity|].
  simpl. now rewrite Hc, IH.
Qed.

Lemma filter_not_special (s : str) :
  Forall (fun c => is_special c = false)
         (filter (fun c => negb (is_special c)) s).
Proof.
  apply Forall_forall. intros c Hin.
  apply filter_In in Hin. now apply negb_true_iff.
Qed.

Lemma squeeze_Forall (P : char -> Prop) (f : char -> bool) (x : char) (s : str) :
  P x -> Forall P s -> Forall P (squeeze f x s).
Proof.
  intros Hx. induction 1 as [|c r Hc Hr IH]; [constructor|].
  simpl. destruct (f c).
  - destruct r as [|d r']; [auto|].
    destruct (f d); [exact IH | constructor; auto].
  - constructor; auto.
Qed.

Lemma clean_filename_unfold (text : str) :
  clean_filename text =
  if (MAX_FILENAME_LENGTH <? length (collapsed text))%nat
  then rstrip (firstn MAX_FILENAME_LENGTH (collapsed text))
  else collapsed text.
Proof.
  unfold clean_filename, collapsed, special_chars_pattern,
    consecutive_spaces_pattern.
  now rewrite re_sub_class_delete, re_sub_class_plus.
Qed.

Lemma collapsed_chars (text : str) :
  Forall (fun c => is_special c = false) (collapsed text).
Proof.
  unfold collapsed.
  match goal with |- Forall _ (strip ?t) =>
    destruct (strip_middle t) as (a & b & Hab);
    assert (Ht : Forall (fun c => is_special c = false) t)
  end.
  { apply squeeze_Forall; [reflexivity | apply filter_not_special]. }
  rewrite Hab in Ht.
  apply Forall_app in Ht as [_ Ht]. now apply Forall_app in Ht as [Ht _].
Qed.

Lemma collapsed_spaced (text : str) : spaced (collapsed text).
Proof.
  unfold collapsed.
  match goal with |- spaced (strip ?t) =>
    destruct (strip_middle t) as (a & b & Hab);
    assert (Ht : spaced t) by apply squeeze_spaced
  end.
  rewrite Hab in Ht.
  apply spaced_app_r in Ht. now apply spaced_app_l in Ht.
Qed.

Lemma firstn_start (n : nat) (s : str) :
  starts_with_space s = false -> starts_with_space (firstn n s) = false.
Proof. destruct n, s; simpl; auto. Qed.

(** The output of the sanitiser is safe. *)
Lemma clean_filename_is_safe (text : str) : safe (clean_filename text).
Proof.
  rewrite clean_filename_unfold.
  pose proof (collapsed_chars text) as Hc.
  pose proof (collapsed_spaced text) as Hs.
  assert (Hb : starts_with_space (collapsed text) = false) by apply strip_start.
  assert (He : ends_with_space (collapsed text) = false) by apply strip_end.
  destruct (MAX_FILENAME_LENGTH <? length (collapsed text))%nat eqn:Hlen.
  - set (t := firstn MAX_FILENAME_LENGTH (collapsed text)).
    destruct (rstrip_prefix t) as [b Hb'].
    assert (Ht : collapsed text = t ++ skipn MAX_FILENAME_LENGTH (collapsed text))
      by (symmetry; apply firstn_skipn).
    split.
    + rewrite Ht in Hc. apply Forall_app in Hc as [Hc _].
      rewrite Hb' in Hc. now apply Forall_app in Hc as [Hc _].
    + rewrite Ht in Hs. apply spaced_app_l in Hs.
      rewrite Hb' in Hs. now apply spaced_app_l in Hs.
    + apply rstrip_start. now apply firstn_start.
    + apply rstrip_end.
    + pose proof (rstrip_length t). pose proof (firstn_le_length MAX_FILENAME_LENGTH (collapsed text)).
      fold t in H0. lia.
  - apply Nat.ltb_ge in Hlen. now split.
Qed.

(** A safe text is left as it is. *)
Lemma clean_filename_fixed (s : str) : safe s -> clean_filename s = s.
Proof.
  intros [Hc Hs Hb He Hl].
  assert (Hlt : Forall (fun c => c <> 0x3C) s).
  { eapply Forall_impl; [|exact Hc]. intros c H ->. discriminate H. }
  assert (Ht : collapsed s = s).
  { unfold collapsed. rewrite (re_sub_tag_none s Hlt).
    rewrite filter_fixed
      by (eapply Forall_impl; [|exact Hc]; intros c H; now rewrite H).
    rewrite (spaced_fixed s Hs). now apply strip_fixed. }
  rewrite clean_filename_unfold, Ht.
  apply Nat.ltb_ge in Hl. now rewrite Hl.
Qed.

(** C6.  For every input text, the text returned by [clean_filename]
    contains no character of [FILENAME_SPECIAL_CHARS], has at most 200
    characters, and neither starts nor ends with a whitespace character.
    [clean_filename] is a total function of the text: it has no failing
    case. *)
Theorem clean_filename_output_safe (text : str) :
  Forall (fun c => ~ In c FILENAME_SPECIAL_CHARS) (clean_filename text)
  /\ (length (clean_filename text) <= 200)%nat
  /\ starts_with_space (clean_filename text) = false
  /\ ends_with_space (clean_filename text) = false.
Proof.
  destruct (clean_filename_is_safe text) as [Hc _ Hb He Hl].
  repeat split; try assumption.
  eapply Forall_impl; [|exact Hc].
  intros c Hns Hin. unfold is_special in Hns.
  assert (existsb (N.eqb c) FILENAME_SPECIAL_CHARS = true); [|congruence].
  apply existsb_exists. exists c. split; [exact Hin | apply N.eqb_refl].
Qed.

(** C8.  [clean_filename] is idempotent: sanitising the output of the
    sanitiser returns it unchanged. *)
Theorem clean_filename_idempotent (x : str) :
  clean_filename (clean_filename x) = clean_filename x.
Proof. apply clean_filename_fixed, clean_filename_is_safe. Qed.

(** A run of class characters that ends where the class ends becomes one
    [x]. *)
Lemma squeeze_run (f : char -> bool) (x : char) (run rest : str) :
  run <> [] ->
  Forall (fun c => f c = true) run ->
  match rest with d :: _ => f d = false | [] => True end ->
  squeeze f x (run ++ rest) = x :: squeeze f x rest.
Proof.
  intros Hne Hrun Hrest. induction Hrun as [|c r Hc Hr IH]; [congruence|].
  cbn [app squeeze]. rewrite Hc.
  destruct r as [|d r'].
  - cbn [app]. destruct rest as [|e rest']; [reflexivity|].
    now rewrite Hrest.
  - cbn [app]. inversion Hr as [|? ? Hd _]; subst. rewrite Hd.
    apply IH. discriminate.
Qed.

(** C9.  The output of [clean_filename] contains no hyphen (U+002D): the
    collapsing step replaces every run of hyphens and whitespace by one
    space, so no hyphen is left after it, and a hyphen on its own becomes
    a space.  Two equations determine the step: a run of hyphens and
    whitespace, of any length from one, that is followed by another kind
    of character or by the end of the text becomes a single space, and
    every other character is kept. *)
Theorem clean_filename_no_hyphen (text : str) :
  Forall (fun c => c <> 0x2D) (clean_filename text)
  /\ Forall (fun c => c <> 0x2D) (re_sub consecutive_spaces_pattern [0x20] text)
  /\ re_sub consecutive_spaces_pattern [0x20] [0x2D] = [0x20]
  /\ (forall run rest : str,
         run <> [] ->
         Forall (fun c => is_hyphen_or_space c = true) run ->
         starts_with_separator rest = false ->
         re_sub consecutive_spaces_pattern [0x20] (run ++ rest)
         = 0x20 :: re_sub consecutive_spaces_pattern [0x20] rest)
  /\ (forall (c : char) (rest : str),
         is_hyphen_or_space c = false ->
         re_sub consecutive_spaces_pattern [0x20] (c :: rest)
         = c :: re_sub consecutive_spaces_pattern [0x20] rest).
Proof.
  assert (Hsp : forall s, spaced s -> Forall (fun c => c <> 0x2D) s).
  { intros s Hs. eapply Forall_impl; [|exact (spaced_separators _ Hs)].
    intros c H ->. specialize (H eq_refl). discriminate H. }
  split; [|split; [|split; [|split]]].
  - apply Hsp. now destruct (clean_filename_is_safe text).
  - apply Hsp. unfold consecutive_spaces_pattern.
    rewrite re_sub_class_plus. apply squeeze_spaced.
  - reflexivity.
  - intros run rest Hne Hrun Hrest. unfold consecutive_spaces_pattern.
    rewrite !re_sub_class_plus. apply squeeze_run; [assumption..|].
    destruct rest; [exact I | exact Hrest].
  - intros c rest Hc. unfold consecutive_spaces_pattern.
    rewrite !re_sub_class_plus. cbn [squeeze]. now rewrite Hc.
Qed.

(** C9 on a text with a run of two hyphens and a run of a hyphen between
    two spaces. *)
Lemma clean_filename_no_hyphen_witness :
  re_sub consecutive_spaces_pattern [0x20] (lit "a--b - c") = lit "a b c".
Proof.
  destruct (clean_filename_no_hyphen []) as (_ & _ & _ & Hrun & Hkeep).
  change (lit "a--b - c")
    with [0x61; 0x2D; 0x2D; 0x62; 0x20; 0x2D; 0x20; 0x63].
  change (lit "a b c") with [0x61; 0x20; 0x62; 0x20; 0x63].
  refine (eq_trans (Hkeep 0x61 _ eq_refl) _). apply f_equal.
  refine (eq_trans (Hrun [0x2D; 0x2D] [0x62; 0x20; 0x2D; 0x20; 0x63] _ _ _) _);
    [discriminate | repeat constructor | reflexivity |]. apply f_equal.
  refine (eq_trans (Hkeep 0x62 _ eq_refl) _). apply f_equal.
  refine (eq_trans (Hrun [0x20; 0x2D; 0x20] [0x63] _ _ _) _);
    [discriminate | repeat constructor | reflexivity |]. apply f_equal.
  exact (Hkeep 0x63 [] eq_refl).
Defined.
End Sanitizer.

(* ------------------------------------------------------------------ *)
(** * The plain-text reader: [_read_txt] *)
(* ------------------------------------------------------------------ *)

Module ReaderFacts.
Import Py Effects FileReader Stub Notions.

Lemma files_log_access (a : access) (w : World) :
  files (log_access a w) = files w.
Proof. reflexivity. Qed.

Section WithEnv.
Variable E : Env.

(** One turn of the loop of [_read_txt]. *)
Lemma try_encodings_cons (file_path : str) (c : codec) (rest : list codec)
    (w : World) :
  try_encodings E file_path (c :: rest) w =
  let w' := log_access (OpenText file_path c) w in
  match lookup file_path (files w) with
  | None =>
    (Raise (Exception FileNotFoundError
              (lit "[Errno 2] No such file or directory: " ++ repr file_path) None),
     w')
  | Some data =>
    match decode (gbk_table E) c data with
    | Some text => (Ok (universal_newlines text), w')
    | None => try_encodings E file_path rest w'
    end
  end.
Proof.
  cbn [try_encodings]. unfold try_except, open_read.
  destruct (lookup file_path (files w)) as [data|]; [|reflexivity].
  destruct (decode (gbk_table E) c data); reflexivity.
Qed.

(** [_read_txt] on a file that exists: the first of UTF-8, GBK and latin-1
    that decodes the bytes gives the text. *)
Lemma read_txt_existing (file_path : str) (data : bytes) (w : World) :
  lookup file_path (files w) = Some data ->
  _read_txt E file_path w =
  match utf8_decode data with
  | Some text =>
    (Ok (universal_newlines text), log_access (OpenText file_path UTF8) w)
  | None =>
    match gbk_decode (gbk_table E) data with
    | Some text =>
      (Ok (universal_newlines text),
       log_access (OpenText file_path GBK)
         (log_access (OpenText file_path UTF8) w))
    | None =>
      (Ok (universal_newlines (latin1_decode data)),
       log_access (OpenText file_path Latin1)
         (log_access (OpenText file_path GBK)
            (log_access (OpenText file_path UTF8) w)))
    end
  end.
Proof.
  intros Hf. unfold _read_txt, encodings.
  rewrite try_encodings_cons, Hf. cbn zeta. cbn [decode].
  destruct (utf8_decode data) as [text|]; [reflexivity|].
  rewrite try_encodings_cons, files_log_access, Hf. cbn zeta. cbn [decode].
  destruct (gbk_decode (gbk_table E) data) as [text|]; [reflexivity|].
  rewrite try_encodings_cons, !files_log_access, Hf. reflexivity.
Qed.


End WithEnv.

(** C4, as stated, fails in three ways, whatever the collaborators are.
    A file written in UTF-16 is not extracted to its content: latin-1,
    tried before UTF-16, decodes it.  A file written in latin-1 whose
    bytes happen to be valid UTF-8 is extracted as UTF-8.  And a file
    written in UTF-8 that contains a carriage return is extracted with a
    line feed in its place. *)
Lemma read_txt_not_original_content :
  (utf16_decode hi_utf16 = Some (lit "hi")
   /\ forall E : Env,
       fst (_read_txt E (lit "/f.txt") (fresh_world [(lit "/f.txt", hi_utf16)]))
       = Ok [0xFF; 0xFE; 0x68; 0; 0x69; 0])
  /\ (latin1_decode [xc3; xa9] = [0xC3; 0xA9]
      /\ forall E : Env,
          fst (_read_txt E (lit "/f.txt") (fresh_world [(lit "/f.txt", [xc3; xa9])]))
          = Ok [0xE9])
  /\ (utf8_decode [x61; x0d; x62] = Some [0x61; 0x0D; 0x62]
      /\ forall E : Env,
          fst (_read_txt E (lit "/f.txt") (fresh_world [(lit "/f.txt", [x61; x0d; x62])]))
          = Ok [0x61; 0x0A; 0x62]).
Proof.
  repeat split; intros E;
    erewrite read_txt_existing by reflexivity; reflexivity.
Qed.

(** C4, amended.  A [.txt] file that exists is extracted to the text that
    the first of UTF-8, GBK and latin-1 able to decode its bytes gives,
    with [\r\n] and [\r] read as [\n]: a file written in UTF-8 to its
    content, a file written in GBK to its content when its bytes are not
    valid UTF-8, a file written in latin-1 to its content when its bytes
    are valid in neither.  The error for an undecodable file is raised
    exactly when none of the four candidates decodes the bytes. *)
Theorem read_txt_first_candidate (E : Env) (file_path : str) (data : bytes)
    (w : World) :
  lookup file_path (files w) = Some data ->
  (forall text, decode (gbk_table E) UTF8 data = Some text ->
     fst (_read_txt E file_path w) = Ok (universal_newlines text))
  /\ (forall text, decode (gbk_table E) UTF8 data = None ->
        decode (gbk_table E) GBK data = Some text ->
        fst (_read_txt E file_path w) = Ok (universal_newlines text))
  /\ (forall text, decode (gbk_table E) UTF8 data = None ->
        decode (gbk_table E) GBK data = None ->
        decode (gbk_table E) Latin1 data = Some text ->
        fst (_read_txt E file_path w) = Ok (universal_newlines text))
  /\ (fst (_read_txt E file_path w)
      = Raise (Exception ValueError (lit "无法解码文件: " ++ file_path) None)
      <-> forall c, In c encodings -> decode (gbk_table E) c data = None).
Proof.
  intros Hf. rewrite (read_txt_existing E file_path data w Hf). simpl decode.
  repeat split.
  - intros text ->. reflexivity.
  - intros text -> ->. reflexivity.
  - intros text -> -> [= <-]. reflexivity.
  - intros H.
    destruct (utf8_decode data); [discriminate H|].
    destruct (gbk_decode (gbk_table E) data); discriminate H.
  - intros H. specialize (H Latin1). simpl in H.
    discriminate H. tauto.
Qed.

(** C10.  The branch of [_read_txt] that raises the error for an
    undecodable file is unreachable: latin-1 decodes every byte sequence,
    so on every file that exists [_read_txt] returns a text, and [open]
    is never called with UTF-16. *)
Theorem read_txt_never_fails (E : Env) (file_path : str) (data : bytes)
    (w : World) :
  lookup file_path (files w) = Some data ->
  (forall bs, decode (gbk_table E) Latin1 bs = Some (latin1_decode bs))
  /\ (exists text, fst (_read_txt E file_path w) = Ok text)
  /\ (exists tried,
        opened_with file_path tried w (snd (_read_txt E file_path w))
        /\ ~ In UTF16 tried).
Proof.
  intros Hf. rewrite (read_txt_existing E file_path data w Hf).
  split; [reflexivity|].
  destruct (utf8_decode data) as [t|];
    [|destruct (gbk_decode (gbk_table E) data) as [t|]].
  - split; [now eexists|]. exists [UTF8]. split; [reflexivity|].
    simpl. intuition discriminate.
  - split; [now eexists|]. exists [GBK; UTF8]. split; [reflexivity|].
    simpl. intuition discriminate.
  - split; [now eexists|]. exists [Latin1; GBK; UTF8]. split; [reflexivity|].
    simpl. intuition discriminate.
Qed.

(** C4 on a latin-1 file: the byte [E9] is valid neither as
    UTF-8 nor as GBK. *)
Lemma read_txt_first_candidate_witness :
  fst (_read_txt (env (Ok []) (Ok [])) (lit "/f.txt")
         (fresh_world [(lit "/f.txt", [xe9])]))
  = Ok [0xE9].
Proof.
  exact (proj1 (proj2 (proj2
           (read_txt_first_candidate (env (Ok []) (Ok [])) (lit "/f.txt") [xe9]
              (fresh_world [(lit "/f.txt", [xe9])]) eq_refl)))
           [0xE9] eq_refl eq_refl eq_refl).
Defined.

(** C10 on the UTF-16 file: no UTF-16 [open] in the trace. *)
Lemma read_txt_never_fails_witness :
  (forall bs, decode (fun _ _ => None) Latin1 bs = Some (latin1_decode bs))
  /\ (exists text,
        fst (_read_txt (env (Ok []) (Ok [])) (lit "/f.txt")
               (fresh_world [(lit "/f.txt", hi_utf16)])) = Ok text)
  /\ (exists tried,
        opened_with (lit "/f.txt") tried
          (fresh_world [(lit "/f.txt", hi_utf16)])
          (snd (_read_txt (env (Ok []) (Ok [])) (lit "/f.txt")
                  (fresh_world [(lit "/f.txt", hi_utf16)])))
        /\ ~ In UTF16 tried).
Proof.
  exact (read_txt_never_fails (env (Ok []) (Ok [])) (lit "/f.txt") hi_utf16
           (fresh_world [(lit "/f.txt", hi_utf16)]) eq_refl).
Defined.

End ReaderFacts.

(* ------------------------------------------------------------------ *)
(** * Effects that a computation leaves alone *)
(* ------------------------------------------------------------------ *)

Module Frame.
Import Py Effects.

Section Preservation.
Context {S : Type} (R : S -> S -> Prop) `{!PreOrder R}.

Lemma preserves_ret {A} (a : A) : preserves R (ret a).
Proof. intros s. reflexivity. Qed.

Lemma preserves_raise {A} (e : exn) : preserves R (@raise S A e).
Proof. intros s. reflexivity. Qed.

Lemma preserves_call {A} (r : result A) : preserves R (call r).
Proof. intros s. reflexivity. Qed.

Lemma preserves_gets {A} (f : S -> A) : preserves R (gets f).
Proof. intros s. reflexivity. Qed.

Lemma preserves_bind {A B} (m : M S A) (k : A -> M S B) :
  preserves R m -> (forall a, preserves R (k a)) -> preserves R (bind m k).
Proof.
  intros Hm Hk s. unfold bind. specialize (Hm s).
  destruct (m s) as [[a|e] s']; simpl in *.
  - etransitivity; [exact Hm | apply Hk].
  - exact Hm.
Qed.

Lemma preserves_try_except {A} (m : M S A) (handler : exn -> M S A) :
  preserves R m -> (forall e, preserves R (handler e)) ->
  preserves R (try_except m handler).
Proof.
  intros Hm Hh s. unfold try_except. specialize (Hm s).
  destruct (m s) as [[a|e] s']; simpl in *.
  - exact Hm.
  - etransitivity; [exact Hm | apply Hh].
Qed.

End Preservation.

Create HintDb frame.
#[export] Hint Resolve preserves_ret preserves_raise preserves_call
  preserves_gets : frame.

(** Splits a computation along its binds, handlers and branches and
    closes the leaves with the [frame] hints. *)
Ltac frame_step :=
  match goal with
  | |- preserves _ (bind _ _) =>
    apply preserves_bind; [typeclasses eauto| |intro]
  | |- preserves _ (try_except _ _) =>
    apply preserves_try_except; [typeclasses eauto| |intro]
  | |- preserves _ (if ?b then _ else _) => destruct b
  | |- preserves _ (match ?x with _ => _ end) => destruct x
  end.

Ltac frame := repeat frame_step; auto with frame typeclass_instances.

End Frame.

(* ------------------------------------------------------------------ *)
(** * The model handle: [load_model] *)
(* ------------------------------------------------------------------ *)

Module HandleFacts.
Import Py Effects TextProcessor Stub Notions Frame.

#[export] Instance same_loads_preorder : PreOrder same_loads.
Proof.
  split.
  - intros w. split; reflexivity.
  - intros a b c [H1 H2] [H3 H4]. split; congruence.
Qed.

#[export] Instance same_handle_preorder : PreOrder same_handle.
Proof.
  split.
  - intros st. split; reflexivity.
  - intros a b c [H1 H2] [H3 H4]. split; [congruence | now transitivity (world b)].
Qed.

Lemma lift_same_handle {A} (m : M World A) :
  preserves same_loads m -> preserves same_handle (lift m).
Proof.
  intros Hm st. unfold lift. specialize (Hm (world st)).
  destruct (m (world st)) as [r w]. simpl in *. now split.
Qed.

Lemma log_access_same_loads (a : access) :
  preserves same_loads (modify (log_access a)).
Proof. intros w. split; reflexivity. Qed.

Lemma log_generate_same_loads (ids : list N) (kw : GenerateKwargs) :
  preserves same_loads (modify (log_generate ids kw)).
Proof. intros w. split; reflexivity. Qed.

Lemma os_path_exists_same_loads (path : str) :
  preserves same_loads (os_path_exists path).
Proof. intros w. reflexivity. Qed.

#[export] Hint Resolve lift_same_handle log_access_same_loads
  log_generate_same_loads os_path_exists_same_loads : frame.

Section WithEnv.
Variable E : Env.

Lemma open_read_same_loads (file_path : str) (c : codec) :
  preserves same_loads (FileReader.open_read E file_path c).
Proof.
  intros w. unfold FileReader.open_read.
  destruct (lookup file_path (files w)) as [data|]; [|now split].
  destruct (decode (gbk_table E) c data); now split.
Qed.

Lemma try_encodings_same_loads (file_path : str) (todo : list codec) :
  preserves same_loads (FileReader.try_encodings E file_path todo).
Proof.
  induction todo as [|c rest IH]; simpl.
  - frame.
  - apply preserves_try_except;
      [typeclasses eauto | apply open_read_same_loads|].
    intros e. destruct (class_of e); auto with frame typeclass_instances.
Qed.

Lemma read_txt_same_loads (file_path : str) :
  preserves same_loads (FileReader._read_txt E file_path).
Proof. apply try_encodings_same_loads. Qed.

Lemma read_file_same_loads (file_path : str) :
  preserves same_loads (FileReader.read_file E file_path).
Proof.
  pose proof read_txt_same_loads.
  unfold FileReader.read_file, FileReader._read_docx, FileReader._read_doc.
  frame.
Qed.

Lemma generate_same_handle (ids : list N) (kw : GenerateKwargs) :
  preserves same_handle (generate E ids kw).
Proof. unfold generate. frame. Qed.

(** [load_model] on an instance that holds a handle does nothing. *)
Lemma load_model_loaded (st : State) :
  loaded (self st) -> load_model E st = (Ok tt, st).
Proof.
  intros (m & t & Hm & Ht). unfold load_model, bind, gets. simpl.
  now rewrite Hm, Ht.
Qed.

(** [load_model] returns normally only with a handle in place. *)
Lemma load_model_ok (st : State) :
  fst (load_model E st) = Ok tt -> loaded (self (snd (load_model E st))).
Proof.
  destruct st as [[m t d] w].
  cbv beta iota zeta delta
    [load_model bind gets try_except lift set_self modify call ret raise
     self world model tokenizer].
  destruct m as [m|], t as [t|];
    try (intros _; do 2 eexists; split; reflexivity);
    destruct (tokenizer_from_pretrained E _) as [[]|e1]; try discriminate;
    destruct (model_from_pretrained E _) as [[]|e2]; try discriminate;
    destruct (model_to E _) as [[]|e3]; try discriminate;
    intros _; do 2 eexists; split; reflexivity.
Qed.

(** [load_model] calls nothing but the loaders: the file system, the
    generation log and the signals are as before. *)
Lemma load_model_frame (st : State) :
  files (world (snd (load_model E st))) = files (world st)
  /\ accesses (world (snd (load_model E st))) = accesses (world st)
  /\ generate_calls (world (snd (load_model E st))) = generate_calls (world st)
  /\ emitted (world (snd (load_model E st))) = emitted (world st).
Proof.
  destruct st as [[m t d] w].
  cbv beta iota zeta delta
    [load_model bind gets try_except lift set_self modify call ret raise
     self world model tokenizer].
  destruct m as [m|], t as [t|];
    try (repeat split; fail);
    destruct (tokenizer_from_pretrained E _) as [[]|e1]; try (repeat split; fail);
    destruct (model_from_pretrained E _) as [[]|e2]; try (repeat split; fail);
    destruct (model_to E _) as [[]|e3]; repeat split.
Qed.

(** One call of [load_model] loads the tokenizer and the weights at most
    once each. *)
Lemma load_model_counts (st : State) :
  (tokenizer_loads (world (snd (load_model E st)))
   <= S (tokenizer_loads (world st)))%nat
  /\ (model_loads (world (snd (load_model E st)))
      <= S (model_loads (world st)))%nat.
Proof.
  destruct st as [[m t d] w].
  cbv beta iota zeta delta
    [load_model bind gets try_except lift set_self modify call ret raise
     self world model tokenizer].
  destruct m as [m|], t as [t|];
    try (cbn; lia);
    destruct (tokenizer_from_pretrained E _) as [[]|e1]; try (cbn; lia);
    destruct (model_from_pretrained E _) as [[]|e2]; try (cbn; lia);
    destruct (model_to E _) as [[]|e3]; cbn; lia.
Qed.

Lemma generate_summary_same_handle text max_len min_len language (st : State) :
  loaded (self st) ->
  same_handle st (snd (generate_summary E text max_len min_len language st)).
Proof.
  intros Hl. unfold generate_summary. unfold bind at 1.
  rewrite (load_model_loaded st Hl). cbv zeta.
  match goal with |- same_handle st (snd (?m st)) =>
    enough (preserves same_handle m) by auto
  end.
  pose proof generate_same_handle.
  frame.
Qed.

Lemma process_file_same_handle file_path language kwargs :
  forall st, loaded (self st) ->
  same_handle st (snd (process_file E file_path language kwargs st)).
Proof.
  intros st Hl. unfold process_file, try_except, bind.
  pose proof (lift_same_handle _ (read_file_same_loads file_path) st) as Hr.
  destruct (lift (FileReader.read_file E file_path) st) as [[content|e] st1];
    simpl in Hr; [|exact Hr].
  assert (Hl1 : loaded (self st1)) by (destruct Hr as [-> _]; exact Hl).
  pose proof (generate_summary_same_handle content
                (or_default (kw_max_length kwargs) 30)
                (or_default (kw_min_length kwargs) 10) language st1 Hl1) as Hg.
  destruct (generate_summary E content _ _ language st1) as [[s|e] st2];
    simpl in *; now transitivity st1.
Qed.

End WithEnv.

(** C5, as stated, fails: the handle belongs to the [TextProcessor]
    instance, and the batch loop makes a new instance for every file.
    Processing two files in one run loads the tokenizer and the weights
    twice. *)
Lemma run_loads_model_per_file :
  let w := snd (FileProcessingThread.run three_words
                  [lit "/docs/a.txt"; lit "/docs/b.txt"] (fresh_world two_files)) in
  model_loads w = 2%nat /\ tokenizer_loads w = 2%nat
  /\ emitted w =
     [ processing_completed 2 0;
       progress_updated 2 (lit "b.txt") (lit "annual sales report.txt");
       progress_updated 1 (lit "a.txt") (lit "quarterly sales report.txt") ].
Proof. vm_compute. repeat split. Qed.

(** C5, amended.  The handle is held by the [TextProcessor] instance and
    is set up at most once on it.  One call of [load_model] loads the
    tokenizer and the weights at most once each, and when it returns
    normally the instance holds a model and a tokenizer.  From then on
    every call of [load_model], [generate_summary] or [process_file] on
    that instance keeps the same handle and loads neither the tokenizer
    nor the weights again. *)
Theorem handle_loaded_once (E : Env) :
  (forall st,
      (tokenizer_loads (world (snd (load_model E st)))
       <= S (tokenizer_loads (world st)))%nat
      /\ (model_loads (world (snd (load_model E st)))
          <= S (model_loads (world st)))%nat
      /\ (fst (load_model E st) = Ok tt ->
          loaded (self (snd (load_model E st)))))
  /\ (forall st st',
         loaded (self st) ->
         method_calls E st st' ->
         self st' = self st
         /\ tokenizer_loads (world st') = tokenizer_loads (world st)
         /\ model_loads (world st') = model_loads (world st)).
Proof.
  split.
  - intros st. destruct (load_model_counts E st) as [Ht Hm].
    repeat split; [exact Ht | exact Hm | apply load_model_ok].
  - intros st st' Hl Hc.
    enough (same_handle st st') as [Hs [Ht Hm]] by auto.
    induction Hc as [st|st st1 st2 H1 _ IH]; [reflexivity|].
    assert (H : same_handle st st1).
    { destruct H1.
      - rewrite (load_model_loaded E st Hl). reflexivity.
      - now apply generate_summary_same_handle.
      - now apply process_file_same_handle. }
    transitivity st1; [exact H|].
    apply IH. destruct H as [-> _]. exact Hl.
Qed.

(** C5 on a file processed by an instance that holds its handle. *)
Lemma handle_loaded_once_witness :
  let st' := snd (process_file three_words (lit "/docs/a.txt") (lit "en")
                    no_kwargs warm) in
  self st' = self warm
  /\ tokenizer_loads (world st') = tokenizer_loads (world warm)
  /\ model_loads (world st') = model_loads (world warm).
Proof.
  apply (proj2 (handle_loaded_once three_words) warm).
  - exists 1%nat, 1%nat. split; reflexivity.
  - eapply calls_then; [apply call_process_file | apply calls_none].
Defined.

End HandleFacts.

(* ------------------------------------------------------------------ *)
(** * The two generation passes: [generate_summary] *)
(* ------------------------------------------------------------------ *)

Module SummaryFacts.
Import Py Effects TextProcessor Stub Notions HandleFacts.

Section PrimaryPass.
Variable E : Env.
Variables (text : str) (max_len min_len : Z) (language : str).
Variable st : State.
Variables (ids out : list N) (raw : str).

(** The instance has, or gets, its handle; the input is encoded as [ids];
    the (primary language raw) pass returns [out], which decodes to [raw]. *)
Hypothesis loads : fst (load_model E st) = Ok tt.
Hypothesis encodes :
  tokenizer_encode E (language_prefix language ++ text) = Ok ids.
Hypothesis generates :
  model_generate E (length (generate_calls (world st))) ids
                 (generation_params max_len min_len) = Ok out.
Hypothesis decodes : tokenizer_decode E out = Ok raw.

(** [generate_summary] from the quality gate on. *)
Lemma generate_summary_gate :
  generate_summary E text max_len min_len language st =
  if (word_count (primary language raw) <? 3)%nat then
    let st' := logged ids (fallback_params max_len)
                      (after_primary E max_len min_len st ids) in
    match model_generate E (S (length (generate_calls (world st)))) ids
                         (fallback_params max_len) with
    | Ok fallback_ids =>
      match tokenizer_decode E fallback_ids with
      | Ok fallback_summary =>
        (Ok (if (word_count (primary language raw) <? word_count fallback_summary)%nat
             then fallback_summary else (primary language raw)), st')
      | Raise _ => (Ok (primary language raw), st')
      end
    | Raise _ => (Ok (primary language raw), st')
    end
  else (Ok (primary language raw), after_primary E max_len min_len st ids).
Proof.
  destruct (load_model_frame E st) as (_ & _ & Hcalls & _).
  unfold after_primary, logged, primary.
  unfold generate_summary. unfold bind at 1.
  destruct (load_model E st) as [r st1]. simpl in loads, Hcalls |- *.
  subst r. cbv zeta.
  cbv beta iota delta [try_except bind call generate gets lift modify ret].
  rewrite encodes. cbv beta iota. cbn [world self]. rewrite Hcalls, generates.
  cbv beta iota. rewrite decodes. cbv beta iota.
  destruct (word_count _ <? 3)%nat; [|reflexivity].
  cbn [world self generate_calls log_generate length]. rewrite Hcalls.
  destruct (model_generate E _ ids (fallback_params max_len)) as [fb|e];
    [|reflexivity].
  cbv beta iota.
  destruct (tokenizer_decode E fb) as [fs|e]; [|reflexivity].
  cbv beta iota.
  destruct (word_count _ <? word_count fs)%nat; reflexivity.
Qed.

Hypothesis short : (word_count (primary language raw) < 3)%nat.

(** C2, amended.  When the (primary language raw) summary has fewer than three words,
    the next [generate] call is the fallback pass: same input, beam width
    1, early stopping, no sampling keyword, and [max_length] as in the
    request.  Of the length bounds only [max_length] is passed on:
    [min_length] is not among the keywords. *)
Theorem fallback_call_keywords :
  let st' := snd (generate_summary E text max_len min_len language st) in
  exists kw,
    generate_calls (world st')
    = (ids, kw) :: (ids, generation_params max_len min_len)
        :: generate_calls (world st)
    /\ num_beams kw = Some 1%Z
    /\ do_sample kw = None
    /\ early_stopping kw = Some true
    /\ max_length kw = Some max_len
    /\ min_length kw = None.
Proof.
  destruct (load_model_frame E st) as (_ & _ & Hcalls & _).
  cbv zeta. rewrite generate_summary_gate.
  apply Nat.ltb_lt in short. rewrite short. cbv zeta.
  exists (fallback_params max_len).
  split; [|repeat split].
  destruct (model_generate E _ ids (fallback_params max_len)) as [fb|e];
    [destruct (tokenizer_decode E fb)|];
    cbn [snd world logged after_primary log_generate generate_calls];
    now rewrite Hcalls.
Qed.

(** C7.  When the (primary language raw) summary has fewer than three words, the text
    returned is the fallback decode exactly when the fallback has more
    words than the (primary language raw) result; otherwise it is the (primary language raw) result,
    short as it is.  An exception raised by the fallback generation or by
    its decoding does not leave [generate_summary]: the (primary language raw) result is
    returned. *)
Theorem fallback_acceptance :
  let n := S (length (generate_calls (world st))) in
  let returned := fst (generate_summary E text max_len min_len language st) in
  (forall fallback_ids fallback_summary,
      model_generate E n ids (fallback_params max_len) = Ok fallback_ids ->
      tokenizer_decode E fallback_ids = Ok fallback_summary ->
      returned = Ok (if (word_count (primary language raw) <? word_count fallback_summary)%nat
                     then fallback_summary else (primary language raw)))
  /\ (forall e,
         model_generate E n ids (fallback_params max_len) = Raise e ->
         returned = Ok (primary language raw))
  /\ (forall fallback_ids e,
         model_generate E n ids (fallback_params max_len) = Ok fallback_ids ->
         tokenizer_decode E fallback_ids = Raise e ->
         returned = Ok (primary language raw)).
Proof.
  cbv zeta. rewrite generate_summary_gate.
  apply Nat.ltb_lt in short. rewrite short. cbv zeta.
  repeat split.
  - intros fb fs -> ->. reflexivity.
  - intros e ->. reflexivity.
  - intros fb e -> ->. reflexivity.
Qed.

End PrimaryPass.

(** C2 on an empty primary summary and a fallback of four words. *)
Lemma fallback_call_keywords_witness :
  exists kw,
    generate_calls
      (world (snd (generate_summary (empty_primary (lit "a b c d"))
                     (lit "some text") 30 10 (lit "en") (fresh_state []))))
    = [([], kw); ([], generation_params 30 10)]
    /\ num_beams kw = Some 1%Z
    /\ do_sample kw = None
    /\ early_stopping kw = Some true
    /\ max_length kw = Some 30%Z
    /\ min_length kw = None.
Proof.
  apply (fallback_call_keywords (empty_primary (lit "a b c d"))
           (lit "some text") 30 10 (lit "en") (fresh_state []) [] [0] []);
    try reflexivity.
  apply Nat.ltb_lt. reflexivity.
Defined.

(** C2, as stated, fails: with the defaults of the request
    ([max_length] 30, [min_length] 10) and an empty primary summary, the
    fallback call, the more recent of the two, carries [max_length] but no
    [min_length]. *)
Lemma fallback_omits_min_length :
  map (fun c => (max_length (snd c), min_length (snd c)))
      (generate_calls
         (world (snd (generate_summary (empty_primary (lit "a b c d"))
                        (lit "some text") 30 10 (lit "en") (fresh_state [])))))
  = [(Some 30%Z, None); (Some 30%Z, Some 10%Z)].
Proof. reflexivity. Qed.

(** C7 on the same run: the fallback's four words replace the empty primary
    summary. *)
Lemma fallback_acceptance_witness :
  fst (generate_summary (empty_primary (lit "a b c d"))
         (lit "some text") 30 10 (lit "en") (fresh_state []))
  = Ok (lit "a b c d").
Proof.
  refine (proj1 (fallback_acceptance (empty_primary (lit "a b c d"))
                   (lit "some text") 30 10 (lit "en") (fresh_state [])
                   [] [0] [] eq_refl eq_refl eq_refl eq_refl _)
                [1] (lit "a b c d") eq_refl eq_refl).
  apply Nat.ltb_lt. reflexivity.
Defined.

(** C1.  The returned text can begin with the active prompt prefix: when
    the primary summary is too short and the fallback decode, which
    echoes the prefix, has more words, the fallback decode is returned as
    it is.  The prefix is removed from the primary decode only. *)
Theorem fallback_keeps_prefix :
  fst (generate_summary (empty_primary (lit "summarize English: a b c"))
         (lit "some text") 30 10 (lit "en") (fresh_state []))
  = Ok (lit "summarize English: a b c")
  /\ language_prefix (lit "en") = lit "summarize English: "
  /\ startswith (lit "summarize English: a b c") (language_prefix (lit "en"))
     = true
  /\ remove_prefix (language_prefix (lit "en")) (lit "summarize English: a b c")
     = lit "a b c".
Proof. repeat split. Qed.

End SummaryFacts.

(* ------------------------------------------------------------------ *)
(** * The pipeline: [process_file] *)
(* ------------------------------------------------------------------ *)

Module PipelineFacts.
Import Py Effects TextProcessor Stub.

Lemma startswith_refl (s : str) : startswith s s = true.
Proof. induction s as [|c r IH]; simpl; [reflexivity|]. now rewrite N.eqb_refl. Qed.

Lemma contains_app_r (a b : str) : contains (a ++ b) b = true.
Proof.
  induction a as [|c a IH]; simpl.
  - destruct b; simpl; [reflexivity|].
    now rewrite N.eqb_refl, startswith_refl.
  - rewrite IH. apply orb_true_r.
Qed.

Section WithEnv.
Variable E : Env.

(** [read_file] on a path that does not exist: nothing is opened. *)
Lemma read_file_missing (file_path : str) (w : World) :
  lookup file_path (files w) = None ->
  FileReader.read_file E file_path w =
  (Raise (Exception FileNotFoundError (lit "文件不存在: " ++ file_path) None), w).
Proof.
  intros Hf. unfold FileReader.read_file, bind, os_path_exists, gets.
  now rewrite Hf.
Qed.

End WithEnv.

(** C3, as stated, fails.  Whatever the collaborators are, a path that
    does not exist makes [process_file] raise a [RuntimeError], not the
    [FileNotFoundError] of the reader, which is only its context; and for
    a file of an unsupported type the text of the error names the suffix,
    not the path. *)
Lemma process_file_raises_RuntimeError :
  (forall E : Env,
      fst (process_file E (lit "/missing.txt") (lit "en") no_kwargs
             (fresh_state []))
      = Raise (Exception RuntimeError
                 (lit "文件处理失败: 文件不存在: /missing.txt")
                 (Some (Exception FileNotFoundError
                          (lit "文件不存在: /missing.txt") None))))
  /\ class_eqb RuntimeError FileNotFoundError = false
  /\ (forall E : Env,
         fst (process_file E (lit "/data/report.pdf") (lit "en") no_kwargs
                (fresh_state [(lit "/data/report.pdf", [])]))
         = Raise (Exception RuntimeError
                    (lit "文件处理失败: 不支持的文件类型: .pdf")
                    (Some (Exception ValueError
                             (lit "不支持的文件类型: .pdf") None))))
  /\ contains (lit "文件处理失败: 不支持的文件类型: .pdf")
              (lit "/data/report.pdf") = false.
Proof. repeat split. Qed.

Lemma contains_app_keep (a m p : str) :
  contains m p = true -> contains (a ++ m) p = true.
Proof.
  intros H. induction a as [|x a IH]; [exact H|].
  cbn [app contains]. rewrite IH. apply orb_true_r.
Qed.

Lemma contains_skip (a m : str) (c : char) (p : str) :
  ~ In c a -> contains (a ++ m) (c :: p) = contains m (c :: p).
Proof.
  induction a as [|x a IH]; intros Hn; [reflexivity|].
  cbn [app contains startswith].
  assert (Hx : (x =? c) = false).
  { apply N.eqb_neq. intros ->. apply Hn. now left. }
  rewrite Hx. cbn [andb orb]. apply IH. intros Hin. apply Hn. now right.
Qed.

(** C3, amended.  For a path that does not exist, [process_file] raises a
    [RuntimeError] whose text is the label of [process_file] followed by
    the text of the reader's [FileNotFoundError], which names the path;
    that exception is its context; and the state is left as it was, so
    that nothing is loaded and the model is not called.  Any failure of a
    stage is reported to the caller in this way: when the reader raises,
    and when the reader returns and the summariser raises, [process_file]
    raises a [RuntimeError] whose text is the label followed by the text
    of the stage's exception, with that exception, and so its kind, as
    its context; and [process_file] raises in no other case.  The report
    has no path of its own: it names the path whenever the text of the
    stage does, and, for a path whose first character is not one of the
    label (an absolute path, say), only then. *)
Theorem process_file_failure (E : Env) (language : str)
    (kwargs : SummaryKwargs) :
  (forall file_path st,
      lookup file_path (files (world st)) = None ->
      let missing :=
        Exception FileNotFoundError (lit "文件不存在: " ++ file_path) None in
      process_file E file_path language kwargs st
      = (Raise (Exception RuntimeError
                  (lit "文件处理失败: " ++ lit "文件不存在: " ++ file_path)
                  (Some missing)), st)
      /\ contains (lit "文件处理失败: " ++ lit "文件不存在: " ++ file_path)
                  file_path = true)
  /\ (forall file_path st cause w1,
         FileReader.read_file E file_path (world st) = (Raise cause, w1) ->
         process_file E file_path language kwargs st
         = (Raise (Exception RuntimeError
                     (lit "文件处理失败: " ++ str_of cause) (Some cause)),
            {| self := self st; world := w1 |}))
  /\ (forall file_path st content st1 cause st2,
         lift (FileReader.read_file E file_path) st = (Ok content, st1) ->
         generate_summary E content
           (or_default (kw_max_length kwargs) 30)
           (or_default (kw_min_length kwargs) 10) language st1
         = (Raise cause, st2) ->
         process_file E file_path language kwargs st
         = (Raise (Exception RuntimeError
                     (lit "文件处理失败: " ++ str_of cause) (Some cause)),
            st2))
  /\ (forall file_path st e,
         fst (process_file E file_path language kwargs st) = Raise e ->
         exists cause,
           e = Exception RuntimeError (lit "文件处理失败: " ++ str_of cause)
                         (Some cause)
           /\ (fst (FileReader.read_file E file_path (world st)) = Raise cause
               \/ exists content st1,
                   lift (FileReader.read_file E file_path) st = (Ok content, st1)
                   /\ fst (generate_summary E content
                             (or_default (kw_max_length kwargs) 30)
                             (or_default (kw_min_length kwargs) 10)
                             language st1) = Raise cause))
  /\ (forall (cause : exn) (file_path : str),
         contains (str_of cause) file_path = true ->
         contains (lit "文件处理失败: " ++ str_of cause) file_path = true)
  /\ (forall (cause : exn) (c : char) (rest : str),
         ~ In c (lit "文件处理失败: ") ->
         contains (lit "文件处理失败: " ++ str_of cause) (c :: rest)
         = contains (str_of cause) (c :: rest)).
Proof.
  split; [|split; [|split; [|split; [|split]]]].
  - intros file_path [p w] Hf missing. simpl in Hf. split.
    + unfold process_file, try_except, bind, lift. cbn [world self].
      now rewrite (read_file_missing E file_path w Hf).
    + rewrite app_assoc. apply contains_app_r.
  - intros file_path st cause w1 Hread.
    unfold process_file, try_except, bind, lift. now rewrite Hread.
  - intros file_path st content st1 cause st2 Hread Hsum.
    unfold process_file, try_except, bind. now rewrite Hread, Hsum.
  - intros file_path st e.
    unfold process_file, try_except, bind.
    destruct (lift (FileReader.read_file E file_path) st) as [[content|c] st1]
      eqn:Hread.
    + destruct (generate_summary E content _ _ language st1) as [[s|c] st2]
        eqn:Hsum; cbn [fst]; [discriminate|].
      intros [= <-]. exists c. split; [reflexivity|].
      right. exists content, st1. now rewrite Hsum.
    + cbn [fst]. intros [= <-]. exists c. split; [reflexivity|].
      left. unfold lift in Hread.
      destruct (FileReader.read_file E file_path (world st)) as [r w'].
      now inversion Hread.
  - intros cause file_path. apply contains_app_keep.
  - intros cause c rest. apply contains_skip.
Qed.

(** C3 on a path looked up in an empty file system, and on a text file
    whose summary cannot be decoded. *)
Lemma process_file_failure_witness :
  process_file (env (Ok []) (Ok [])) (lit "/missing.txt") (lit "en") no_kwargs
               (fresh_state [])
  = (Raise (Exception RuntimeError
              (lit "文件处理失败: " ++ lit "文件不存在: " ++ lit "/missing.txt")
              (Some (Exception FileNotFoundError
                       (lit "文件不存在: " ++ lit "/missing.txt") None))),
     fresh_state [])
  /\ fst (process_file
            (env (Raise (Exception LibraryError (lit "boom") None)) (Ok []))
            (lit "/a.txt") (lit "en") no_kwargs
            (fresh_state [(lit "/a.txt", [x61])]))
     = Raise (Exception RuntimeError (lit "文件处理失败: 摘要生成失败: boom")
                (Some (Exception RuntimeError (lit "摘要生成失败: boom")
                         (Some (Exception LibraryError (lit "boom") None))))).
Proof.
  split.
  - exact (proj1 (proj1 (process_file_failure (env (Ok []) (Ok [])) (lit "en")
                           no_kwargs)
                        (lit "/missing.txt") (fresh_state []) eq_refl)).
  - destruct (process_file_failure
                (env (Raise (Exception LibraryError (lit "boom") None)) (Ok []))
                (lit "en") no_kwargs) as (_ & _ & Hsum & _).
    rewrite (Hsum (lit "/a.txt") (fresh_state [(lit "/a.txt", [x61])])
               (lit "a") _ _ _ eq_refl eq_refl).
    reflexivity.
Defined.

End PipelineFacts.

Module Utf8Facts.
Import Py Effects FileReader Stub Notions Utf8.

Lemma byte_of_to_N (n : N) : n < 256 -> Byte.to_N (byte_of n) = n.
Proof.
  intros Hn. unfold byte_of.
  destruct (Byte.of_N n) as [b|] eqn:Hb.
  - now apply Byte.to_of_N.
  - apply Byte.of_N_None_iff in Hb. lia.
Qed.

(** Linear arithmetic with division and remainder by constants. *)
Ltac nlia := zify; Z.to_euclidean_division_equations; lia.

(** The decoder on a sequence of one, two, three and four bytes. *)
Lemma utf8_decode_one (b0 : byte) (rest : bytes) :
  Byte.to_N b0 < 0x80 ->
  utf8_decode (b0 :: rest) = option_map (cons (Byte.to_N b0)) (utf8_decode rest).
Proof.
  intros H. apply N.ltb_lt in H. cbn [utf8_decode]. cbv zeta. now rewrite H.
Qed.

Lemma utf8_decode_two (b0 b1 : byte) (rest : bytes) :
  0xC2 <= Byte.to_N b0 <= 0xDF ->
  0x80 <= Byte.to_N b1 <= 0xBF ->
  utf8_decode (b0 :: b1 :: rest)
  = option_map (cons ((Byte.to_N b0 - 0xC0) * 64 + (Byte.to_N b1 - 0x80)))
               (utf8_decode rest).
Proof.
  intros [H0 H0'] [H1 H1']. cbn [utf8_decode]. cbv zeta.
  replace (Byte.to_N b0 <? 0x80) with false by (symmetry; apply N.ltb_ge; lia).
  unfold is_continuation, in_range.
  apply N.leb_le in H0, H0', H1, H1'. now rewrite H0, H0', H1, H1'.
Qed.

Lemma utf8_decode_three (b0 b1 b2 : byte) (rest : bytes) :
  0xE0 <= Byte.to_N b0 <= 0xEF ->
  0x80 <= Byte.to_N b1 <= 0xBF ->
  (Byte.to_N b0 = 0xE0 -> 0xA0 <= Byte.to_N b1) ->
  (Byte.to_N b0 = 0xED -> Byte.to_N b1 <= 0x9F) ->
  0x80 <= Byte.to_N b2 <= 0xBF ->
  utf8_decode (b0 :: b1 :: b2 :: rest)
  = option_map (cons ((Byte.to_N b0 - 0xE0) * 4096 + (Byte.to_N b1 - 0x80) * 64
                      + (Byte.to_N b2 - 0x80)))
               (utf8_decode rest).
Proof.
  intros H0 H1 HE0 HED H2. cbn [utf8_decode]. cbv zeta.
  replace (Byte.to_N b0 <? 0x80) with false by (symmetry; apply N.ltb_ge; lia).
  replace (in_range 0xC2 0xDF (Byte.to_N b0)) with false
    by (symmetry; unfold in_range; apply andb_false_iff; right;
        apply N.leb_gt; lia).
  replace (in_range 0xE0 0xEF (Byte.to_N b0)) with true
    by (symmetry; unfold in_range; apply andb_true_iff; split;
        apply N.leb_le; lia).
  replace (is_continuation (Byte.to_N b2)) with true
    by (symmetry; unfold is_continuation, in_range; apply andb_true_iff; split;
        apply N.leb_le; lia).
  replace (second_of_three (Byte.to_N b0) (Byte.to_N b1)) with true;
    [reflexivity|].
  symmetry. unfold second_of_three, is_continuation, in_range.
  destruct (Byte.to_N b0 =? 0xE0) eqn:E0;
    [apply N.eqb_eq in E0|destruct (Byte.to_N b0 =? 0xED) eqn:ED;
                           [apply N.eqb_eq in ED|]];
    apply andb_true_iff; split; apply N.leb_le; auto; lia.
Qed.

Lemma utf8_decode_four (b0 b1 b2 b3 : byte) (rest : bytes) :
  0xF0 <= Byte.to_N b0 <= 0xF4 ->
  0x80 <= Byte.to_N b1 <= 0xBF ->
  (Byte.to_N b0 = 0xF0 -> 0x90 <= Byte.to_N b1) ->
  (Byte.to_N b0 = 0xF4 -> Byte.to_N b1 <= 0x8F) ->
  0x80 <= Byte.to_N b2 <= 0xBF ->
  0x80 <= Byte.to_N b3 <= 0xBF ->
  utf8_decode (b0 :: b1 :: b2 :: b3 :: rest)
  = option_map (cons ((Byte.to_N b0 - 0xF0) * 262144
                      + (Byte.to_N b1 - 0x80) * 4096
                      + (Byte.to_N b2 - 0x80) * 64 + (Byte.to_N b3 - 0x80)))
               (utf8_decode rest).
Proof.
  intros H0 H1 HF0 HF4 H2 H3. cbn [utf8_decode]. cbv zeta.
  replace (Byte.to_N b0 <? 0x80) with false by (symmetry; apply N.ltb_ge; lia).
  replace (in_range 0xC2 0xDF (Byte.to_N b0)) with false
    by (symmetry; unfold in_range; apply andb_false_iff; right;
        apply N.leb_gt; lia).
  replace (in_range 0xE0 0xEF (Byte.to_N b0)) with false
    by (symmetry; unfold in_range; apply andb_false_iff; right;
        apply N.leb_gt; lia).
  replace (in_range 0xF0 0xF4 (Byte.to_N b0)) with true
    by (symmetry; unfold in_range; apply andb_true_iff; split;
        apply N.leb_le; lia).
  replace (is_continuation (Byte.to_N b2)) with true
    by (symmetry; unfold is_continuation, in_range; apply andb_true_iff; split;
        apply N.leb_le; lia).
  replace (is_continuation (Byte.to_N b3)) with true
    by (symmetry; unfold is_continuation, in_range; apply andb_true_iff; split;
        apply N.leb_le; lia).
  replace (second_of_four (Byte.to_N b0) (Byte.to_N b1)) with true;
    [reflexivity|].
  symmetry. unfold second_of_four, is_continuation, in_range.
  destruct (Byte.to_N b0 =? 0xF0) eqn:F0;
    [apply N.eqb_eq in F0|destruct (Byte.to_N b0 =? 0xF4) eqn:F4;
                           [apply N.eqb_eq in F4|]];
    apply andb_true_iff; split; apply N.leb_le; auto; lia.
Qed.

(** Decoding what encodes one scalar value gives that value back and goes
    on with the rest. *)
Lemma utf8_decode_encode_char (c : char) (rest : bytes) :
  is_scalar c = true ->
  utf8_decode (utf8_encode_char c ++ rest) = option_map (cons c) (utf8_decode rest).
Proof.
  intros Hs. unfold is_scalar, in_range in Hs.
  assert (Hc : c < 0xD800 \/ (0xE000 <= c /\ c <= 0x10FFFF)).
  { apply orb_true_iff in Hs as [H|H]; [left; now apply N.ltb_lt|right].
    apply andb_true_iff in H as [H1 H2].
    split; now apply N.leb_le. }
  clear Hs. unfold utf8_encode_char.
  destruct (N.ltb_spec c 0x80) as [H1|H1];
    [|destruct (N.ltb_spec c 0x800) as [H2|H2];
      [|destruct (N.ltb_spec c 0x10000) as [H3|H3]]];
    cbn [app].
  - rewrite utf8_decode_one; rewrite byte_of_to_N by lia; [reflexivity|lia].
  - rewrite utf8_decode_two; rewrite ?byte_of_to_N by nlia; [|nlia|nlia].
    replace ((0xC0 + c / 64 - 0xC0) * 64 + (0x80 + c mod 64 - 0x80)) with c
      by nlia.
    reflexivity.
  - rewrite utf8_decode_three; rewrite ?byte_of_to_N by nlia;
      [|nlia|nlia|nlia|nlia|nlia].
    replace ((0xE0 + c / 4096 - 0xE0) * 4096 + (0x80 + (c / 64) mod 64 - 0x80) * 64
             + (0x80 + c mod 64 - 0x80)) with c by nlia.
    reflexivity.
  - rewrite utf8_decode_four; rewrite ?byte_of_to_N by nlia;
      [|nlia|nlia|nlia|nlia|nlia|nlia].
    replace ((0xF0 + c / 262144 - 0xF0) * 262144
             + (0x80 + (c / 4096) mod 64 - 0x80) * 4096
             + (0x80 + (c / 64) mod 64 - 0x80) * 64
             + (0x80 + c mod 64 - 0x80)) with c by nlia.
    reflexivity.
Qed.

Lemma utf8_decode_encode (s : str) :
  forallb is_scalar s = true -> utf8_decode (utf8_encode s) = Some s.
Proof.
  induction s as [|c r IH]; [reflexivity|].
  cbn [forallb utf8_encode flat_map]. intros H.
  apply andb_true_iff in H as [Hc Hr].
  rewrite utf8_decode_encode_char by exact Hc.
  fold (utf8_encode r). now rewrite IH.
Qed.

End Utf8Facts.

(* ------------------------------------------------------------------ *)
(** * More about the readers *)
(* ------------------------------------------------------------------ *)

Module ReaderMore.
Import Py PyFacts Effects FileReader Stub Notions MoreNotions Utf8 Utf8Facts
  ReaderFacts.

Lemma str_eqb_eq (a b : str) : str_eqb a b = true <-> a = b.
Proof.
  revert b. induction a as [|x a IH]; intros [|y b]; simpl;
    try (split; [discriminate|discriminate]); [tauto|].
  rewrite andb_true_iff, N.eqb_eq, IH.
  split; [intros [-> ->]; reflexivity | intros [= -> ->]; auto].
Qed.

Lemma str_eqb_neq (a b : str) : a <> b -> str_eqb a b = false.
Proof.
  intros H. destruct (str_eqb a b) eqn:E; [|reflexivity].
  now apply str_eqb_eq in E.
Qed.

Lemma universal_newlines_fixed (s : str) :
  ~ In 0x0D s -> universal_newlines s = s.
Proof.
  induction s as [|c r IH]; [reflexivity|].
  intros H. simpl in H. cbn [universal_newlines].
  destruct (N.eqb_spec c 0x0D) as [->|_]; [tauto|].
  rewrite IH; tauto.
Qed.

(** X1.  [read_file] on a file that exists but whose suffix, lower-cased,
    is none of [.txt], [.docx], [.doc] raises a [ValueError] whose text
    names that suffix, and has opened nothing: the world is as before.
    The suffix is taken to be ASCII, where [lower] is [str.lower]. *)
Theorem read_file_unsupported (E : Env) (file_path : str) (data : bytes)
    (w : World) :
  lookup file_path (files w) = Some data ->
  forallb (fun c => c <? 0x80) (path_suffix file_path) = true ->
  lower (path_suffix file_path) <> lit ".txt" ->
  lower (path_suffix file_path) <> lit ".docx" ->
  lower (path_suffix file_path) <> lit ".doc" ->
  read_file E file_path w
  = (Raise (Exception ValueError
              (lit "不支持的文件类型: " ++ lower (path_suffix file_path)) None),
     w).
Proof.
  intros Hf _ H1 H2 H3.
  unfold read_file, bind, os_path_exists, gets. rewrite Hf. cbn [negb].
  cbv zeta. now rewrite !str_eqb_neq by assumption.
Qed.

Lemma read_file_unsupported_witness :
  read_file (env (Ok []) (Ok [])) (lit "/data/Report.PDF")
            (fresh_world [(lit "/data/Report.PDF", [x25])])
  = (Raise (Exception ValueError (lit "不支持的文件类型: .pdf") None),
     fresh_world [(lit "/data/Report.PDF", [x25])]).
Proof.
  apply (read_file_unsupported (env (Ok []) (Ok [])) (lit "/data/Report.PDF")
           [x25]);
    [reflexivity | reflexivity | discriminate | discriminate | discriminate].
Defined.



(** X3.  A text of Unicode scalar values, written to a file as UTF-8, is
    read back by [_read_txt] with its line ends normalised, and exactly
    as it was written when it holds no carriage return. *)
Theorem read_txt_utf8_round_trip (E : Env) (file_path : str) (text : str)
    (w : World) :
  forallb is_scalar text = true ->
  lookup file_path (files w) = Some (utf8_encode text) ->
  fst (_read_txt E file_path w) = Ok (universal_newlines text)
  /\ (~ In 0x0D text -> fst (_read_txt E file_path w) = Ok text).
Proof.
  intros Hs Hf.
  rewrite (read_txt_existing E file_path _ w Hf), (utf8_decode_encode text Hs).
  split; [reflexivity|].
  intros Hcr. cbn [fst]. now rewrite universal_newlines_fixed.
Qed.

Lemma read_txt_utf8_round_trip_witness :
  fst (_read_txt (env (Ok []) (Ok [])) (lit "/notes.txt")
         (fresh_world [(lit "/notes.txt", utf8_encode (lit "naïve 世界 𝄞"))]))
  = Ok (lit "naïve 世界 𝄞").
Proof.
  apply (read_txt_utf8_round_trip (env (Ok []) (Ok [])) (lit "/notes.txt")
           (lit "naïve 世界 𝄞")); [reflexivity | reflexivity |].
  vm_compute. intuition discriminate.
Defined.

Lemma squeeze_separated (f : char -> bool) (x : char) (s : str) :
  separated f x (squeeze f x s).
Proof.
  induction s as [|c r IH]; [exact I|].
  simpl. destruct (f c) eqn:Hc.
  - destruct r as [|d r'].
    + simpl. auto.
    + destruct (f d) eqn:Hd; [exact IH|].
      split; [|exact IH].
      intros _. split; [reflexivity|].
      simpl. rewrite Hd. exact Hd.
  - split; [|exact IH]. intros H. congruence.
Qed.

Lemma separated_app_r (f : char -> bool) (x : char) (a b : str) :
  separated f x (a ++ b) -> separated f x b.
Proof. induction a as [|c a IH]; simpl; [auto|]. intros [_ H]. auto. Qed.

Lemma separated_app_l (f : char -> bool) (x : char) (a b : str) :
  separated f x (a ++ b) -> separated f x a.
Proof.
  induction a as [|c a IH]; simpl; [auto|].
  intros [Hc H]. split; [|auto].
  intros Hs. destruct (Hc Hs) as [-> Hn]. split; [reflexivity|].
  destruct a; [exact I | exact Hn].
Qed.

Lemma separated_strip (f : char -> bool) (x : char) (s : str) :
  separated f x s -> separated f x (strip s).
Proof.
  intros H. destruct (strip_middle s) as (a & b & Hab).
  rewrite Hab in H. apply separated_app_r in H. now apply separated_app_l in H.
Qed.

Lemma Forall_strip (P : char -> Prop) (s : str) :
  Forall P s -> Forall P (strip s).
Proof.
  intros H. destruct (strip_middle s) as (a & b & Hab).
  rewrite Hab in H. apply Forall_app in H as [_ H].
  now apply Forall_app in H as [H _].
Qed.

Lemma squeeze_keeps (P : char -> Prop) (f : char -> bool) (x : char) (s : str) :
  P x -> Forall P s -> Forall P (squeeze f x s).
Proof.
  intros Hx. induction 1 as [|c r Hc Hr IH]; [constructor|].
  simpl. destruct (f c).
  - destruct r as [|d r']; [auto|].
    destruct (f d); [exact IH | constructor; auto].
  - constructor; auto.
Qed.

(** [_read_doc] on a container that has the stream. *)
Lemma read_doc_stream (E : Env) (file_path : str) (data doc_data : bytes)
    (w : World) :
  lookup file_path (files w) = Some data ->
  ole_WordDocument E data = Ok (Some doc_data) ->
  _read_doc E file_path w
  = (Ok (strip (squeeze isspace 0x20
                  (filter (fun c => negb (c =? 0)) (utf16_replace E doc_data)))),
     log_access (OpenOle file_path) w).
Proof.
  intros Hf Hs.
  unfold _read_doc, try_except, bind, modify, gets, call, ret.
  rewrite files_log_access, Hf, Hs.
  unfold re_nul, re_spaces. now rewrite re_sub_class_delete, re_sub_class_plus.
Qed.

(** X4.  The text [_read_doc] extracts from the [WordDocument] stream is
    normalised: it holds no NUL, its only whitespace characters are
    single spaces, each followed by a character that is not whitespace,
    and it neither starts nor ends with whitespace. *)
Theorem read_doc_normalised (E : Env) (file_path : str)
    (data doc_data : bytes) (w : World) :
  lookup file_path (files w) = Some data ->
  ole_WordDocument E data = Ok (Some doc_data) ->
  exists text,
    fst (_read_doc E file_path w) = Ok text
    /\ ~ In 0 text
    /\ separated isspace 0x20 text
    /\ starts_with_space text = false
    /\ ends_with_space text = false.
Proof.
  intros Hf Hs. rewrite (read_doc_stream E file_path data doc_data w Hf Hs).
  eexists. split; [reflexivity|].
  repeat split.
  - intros Hin.
    assert (H : Forall (fun c => c <> 0)
                  (strip (squeeze isspace 0x20
                     (filter (fun c => negb (c =? 0))
                             (utf16_replace E doc_data))))).
    { apply Forall_strip, squeeze_keeps; [discriminate|].
      apply Forall_forall. intros c Hc. apply filter_In in Hc as [_ Hc].
      apply negb_true_iff in Hc. now apply N.eqb_neq. }
    rewrite Forall_forall in H. now apply (H 0).
  - apply separated_strip, squeeze_separated.
  - apply strip_start.
  - apply strip_end.
Qed.

Lemma read_doc_normalised_witness :
  exists text,
    fst (_read_doc (with_stream (Some [x20; x61; x00; x09; x0a; x62; x20]))
           (lit "/old.doc") (fresh_world [(lit "/old.doc", [])])) = Ok text
    /\ ~ In 0 text
    /\ separated isspace 0x20 text
    /\ starts_with_space text = false
    /\ ends_with_space text = false.
Proof.
  exact (read_doc_normalised
           (with_stream (Some [x20; x61; x00; x09; x0a; x62; x20]))
           (lit "/old.doc") [] [x20; x61; x00; x09; x0a; x62; x20]
           (fresh_world [(lit "/old.doc", [])]) eq_refl eq_refl).
Defined.

(** X5.  [read_file] on a [.doc] file whose container has no
    [WordDocument] stream raises a [ValueError] saying that the file is
    not a valid Word document; the suffix is matched whatever its letter
    case. *)
Theorem read_file_invalid_document (E : Env) (file_path : str) (data : bytes)
    (w : World) :
  lookup file_path (files w) = Some data ->
  lower (path_suffix file_path) = lit ".doc" ->
  ole_WordDocument E data = Ok None ->
  read_file E file_path w
  = (Raise (Exception ValueError (lit "文件不是有效的Word文档") None),
     log_access (OpenOle file_path) w).
Proof.
  intros Hf Hd Hs.
  unfold read_file, bind, os_path_exists, gets. rewrite Hf. cbn [negb].
  cbv zeta. rewrite Hd.
  change (str_eqb (lit ".doc") (lit ".txt")) with false.
  change (str_eqb (lit ".doc") (lit ".docx")) with false.
  change (str_eqb (lit ".doc") (lit ".doc")) with true.
  cbv iota.
  unfold _read_doc, try_except, bind, modify, gets, call, raise.
  now rewrite files_log_access, Hf, Hs.
Qed.

Lemma read_file_invalid_document_witness :
  read_file (with_stream None) (lit "/old.DOC")
            (fresh_world [(lit "/old.DOC", [])])
  = (Raise (Exception ValueError (lit "文件不是有效的Word文档") None),
     log_access (OpenOle (lit "/old.DOC")) (fresh_world [(lit "/old.DOC", [])])).
Proof.
  exact (read_file_invalid_document (with_stream None) (lit "/old.DOC") []
           (fresh_world [(lit "/old.DOC", [])]) eq_refl eq_refl eq_refl).
Defined.



End ReaderMore.

(* ------------------------------------------------------------------ *)
(** * More about the summariser and the pipeline *)
(* ------------------------------------------------------------------ *)

Module ProcessorMore.
Import Py PyFacts Effects TextProcessor Stub Notions MoreNotions Frame
  HandleFacts SummaryFacts Sanitizer ReaderMore.

Lemma dict_get_missing (d : list (str * str)) (key default : str) :
  ~ In key (map fst d) -> dict_get d key default = default.
Proof.
  induction d as [|[k v] d IH]; [reflexivity|].
  simpl. intros H.
  rewrite str_eqb_neq by (intros ->; tauto). apply IH. tauto.
Qed.

(** X7.  A language code that is not one of the ten keys of
    [LANGUAGE_PREFIXES] gets the English prefix. *)
Theorem language_prefix_default (language : str) :
  ~ In language (map fst LANGUAGE_PREFIXES) ->
  language_prefix language = lit "summarize English: ".
Proof.
  intros H. unfold language_prefix. now rewrite dict_get_missing.
Qed.

Lemma language_prefix_default_witness :
  language_prefix (lit "pt") = lit "summarize English: ".
Proof.
  apply language_prefix_default. vm_compute. intuition discriminate.
Defined.

Lemma startswith_app (p s : str) : startswith (p ++ s) p = true.
Proof.
  induction p as [|c p IH]; [destruct s; reflexivity|].
  simpl. now rewrite N.eqb_refl.
Qed.

Lemma skipn_length_app (p s : str) : skipn (length p) (p ++ s) = s.
Proof. induction p as [|c p IH]; [reflexivity | exact IH]. Qed.

(** X8.  When the decoded output is the prompt prefix followed by some
    text, the step that removes the echo returns that text without the
    whitespace around it. *)
Theorem remove_prefix_echo (summary_prefix text : str) :
  remove_prefix summary_prefix (summary_prefix ++ text) = strip text.
Proof.
  unfold remove_prefix. now rewrite startswith_app, skipn_length_app.
Qed.

Section WithEnv.
Variable E : Env.

(** [load_model] raises only what its handler raises. *)
Lemma load_model_raises (st : State) (e : exn) :
  fst (load_model E st) = Raise e ->
  exists cause, e = wrap (lit "模型加载失败: ") cause.
Proof.
  destruct st as [[m t d] w].
  cbv beta iota zeta delta
    [load_model bind gets try_except lift set_self modify call ret raise
     self world model tokenizer].
  destruct m as [m|], t as [t|]; try discriminate;
    destruct (tokenizer_from_pretrained E _) as [[]|e1];
    try (cbn [fst]; intros [= <-]; eauto; fail);
    destruct (model_from_pretrained E _) as [[]|e2];
    try (cbn [fst]; intros [= <-]; eauto; fail);
    destruct (model_to E _) as [[]|e3];
    try discriminate; cbn [fst]; intros [= <-]; eauto.
Qed.

Lemma try_except_wrap {S A} (m : M S A) (label : str) (s : S) (e : exn) :
  fst (try_except m (fun error => raise (wrap label error)) s) = Raise e ->
  exists cause, e = wrap label cause.
Proof.
  unfold try_except, raise.
  destruct (m s) as [[a|c] s']; cbn [fst]; [discriminate|].
  intros [= <-]. eauto.
Qed.

(** X9.  Whatever goes wrong, [generate_summary] raises a [RuntimeError]
    and nothing else: its text is the label of the loader or the label
    of the summariser followed by the text of the exception that caused
    it, which is kept as the context. *)
Theorem generate_summary_raises_RuntimeError (text : str) (max_len min_len : Z)
    (language : str) (st : State) (e : exn) :
  fst (generate_summary E text max_len min_len language st) = Raise e ->
  class_of e = RuntimeError
  /\ exists cause,
       context_of e = Some cause
       /\ (str_of e = lit "模型加载失败: " ++ str_of cause
           \/ str_of e = lit "摘要生成失败: " ++ str_of cause).
Proof.
  unfold generate_summary. unfold bind at 1.
  destruct (load_model E st) as [[[]|e0] st1] eqn:Hl.
  - cbv zeta. intros H. apply try_except_wrap in H as [cause ->].
    split; [reflexivity|]. exists cause. split; [reflexivity|]. now right.
  - cbn [fst]. intros [= <-].
    destruct (load_model_raises st e0) as [cause ->]; [now rewrite Hl|].
    split; [reflexivity|]. exists cause. split; [reflexivity|]. now left.
Qed.

End WithEnv.

(** X9 on a primary pass whose decoding raises. *)
Lemma generate_summary_raises_RuntimeError_witness :
  class_of (wrap (lit "摘要生成失败: ") (Exception LibraryError (lit "boom") None))
  = RuntimeError
  /\ exists cause,
       context_of (wrap (lit "摘要生成失败: ")
                        (Exception LibraryError (lit "boom") None)) = Some cause
       /\ (str_of (wrap (lit "摘要生成失败: ")
                        (Exception LibraryError (lit "boom") None))
           = lit "模型加载失败: " ++ str_of cause
           \/ str_of (wrap (lit "摘要生成失败: ")
                           (Exception LibraryError (lit "boom") None))
              = lit "摘要生成失败: " ++ str_of cause).
Proof.
  exact (generate_summary_raises_RuntimeError
           (env (Raise (Exception LibraryError (lit "boom") None)) (Ok []))
           (lit "some text") 30 10 (lit "en") (fresh_state []) _ eq_refl).
Defined.

(** X10.  One call of [generate_summary] calls the model at most twice:
    not at all, once with the keywords of the primary pass, or a second
    time with the keywords of the fallback pass, on the same encoded
    input. *)
Theorem generate_summary_calls (E : Env) (text : str) (max_len min_len : Z)
    (language : str) (st : State) :
  exists new,
    generate_calls
      (world (snd (generate_summary E text max_len min_len language st)))
    = new ++ generate_calls (world st)
    /\ (new = []
        \/ exists ids,
            new = [(ids, generation_params max_len min_len)]
            \/ new = [(ids, fallback_params max_len);
                      (ids, generation_params max_len min_len)]).
Proof.
  destruct (load_model_frame E st) as (_ & _ & Hcalls & _).
  unfold generate_summary. unfold bind at 1.
  destruct (load_model E st) as [[[]|e0] st1]; cbn [snd] in Hcalls;
    [|exists []; split; [now rewrite <- Hcalls | now left]].
  cbv zeta.
  cbv beta iota delta [try_except bind call generate gets lift modify ret raise].
  destruct (tokenizer_encode E _) as [ids|e1];
    [|exists []; split; [now rewrite <- Hcalls | now left]].
  cbv beta iota. cbn [world self].
  destruct (model_generate E _ ids (generation_params max_len min_len))
    as [out|e2];
    [|exists [(ids, generation_params max_len min_len)];
      split; [cbn; now rewrite Hcalls | right; exists ids; now left]].
  cbv beta iota.
  destruct (tokenizer_decode E out) as [raw|e3];
    [|exists [(ids, generation_params max_len min_len)];
      split; [cbn; now rewrite Hcalls | right; exists ids; now left]].
  cbv beta iota.
  destruct (word_count _ <? 3)%nat;
    [|exists [(ids, generation_params max_len min_len)];
      split; [cbn; now rewrite Hcalls | right; exists ids; now left]].
  cbn [world self].
  exists [(ids, fallback_params max_len);
          (ids, generation_params max_len min_len)].
  split; [|right; exists ids; now right].
  destruct (model_generate E _ ids (fallback_params max_len)) as [fb|e4];
    [|cbn; now rewrite Hcalls].
  cbv beta iota.
  destruct (tokenizer_decode E fb) as [fs|e5]; [|cbn; now rewrite Hcalls].
  cbv beta iota.
  destruct (word_count _ <? word_count fs)%nat; cbn; now rewrite Hcalls.
Qed.

(** X11.  When the primary summary has three words or more it is
    returned as it is, without an echoed prefix, and the model is called
    just once. *)
Theorem long_primary_is_returned (E : Env) (text : str) (max_len min_len : Z)
    (language : str) (st : State) (ids out : list N) (raw : str) :
  fst (load_model E st) = Ok tt ->
  tokenizer_encode E (language_prefix language ++ text) = Ok ids ->
  model_generate E (length (generate_calls (world st))) ids
                 (generation_params max_len min_len) = Ok out ->
  tokenizer_decode E out = Ok raw ->
  (3 <= word_count (primary language raw))%nat ->
  fst (generate_summary E text max_len min_len language st)
  = Ok (primary language raw)
  /\ generate_calls
       (world (snd (generate_summary E text max_len min_len language st)))
     = (ids, generation_params max_len min_len) :: generate_calls (world st).
Proof.
  intros Hl He Hg Hd Hw.
  destruct (load_model_frame E st) as (_ & _ & Hcalls & _).
  rewrite (generate_summary_gate E text max_len min_len language st ids out raw
             Hl He Hg Hd).
  apply Nat.ltb_ge in Hw. rewrite Hw.
  split; [reflexivity|].
  cbn [snd world after_primary logged log_generate generate_calls].
  now rewrite Hcalls.
Qed.

Lemma long_primary_is_returned_witness :
  fst (generate_summary three_words (lit "some text") 30 10 (lit "en")
         (fresh_state []))
  = Ok (lit "quarterly sales report")
  /\ generate_calls
       (world (snd (generate_summary three_words (lit "some text") 30 10
                      (lit "en") (fresh_state []))))
     = [([], generation_params 30 10)].
Proof.
  apply (long_primary_is_returned three_words (lit "some text") 30 10 (lit "en")
           (fresh_state []) [] [0] (lit "quarterly sales report"));
    reflexivity.
Defined.

(** X12.  When the tokenizer and the weights load but moving the model
    to the device raises, [load_model] raises, yet the instance is left
    holding both: the next [load_model] returns normally and loads
    nothing, so the model is used where it was loaded. *)
Theorem load_model_after_failed_move (E : Env) (st : State) (cause : exn) :
  ~ loaded (self st) ->
  tokenizer_from_pretrained E (tokenizer_loads (world st)) = Ok tt ->
  model_from_pretrained E (model_loads (world st)) = Ok tt ->
  model_to E (if cuda_is_available E then cuda else cpu) = Raise cause ->
  let st' := snd (load_model E st) in
  fst (load_model E st) = Raise (wrap (lit "模型加载失败: ") cause)
  /\ loaded (self st')
  /\ load_model E st' = (Ok tt, st').
Proof.
  intros Hn Ht Hm Hto st'.
  assert (H : fst (load_model E st) = Raise (wrap (lit "模型加载失败: ") cause)
              /\ loaded (self st')).
  { subst st'. destruct st as [[m t d] w].
    cbv beta iota zeta delta
      [load_model bind gets try_except lift set_self modify call ret raise
       self world model tokenizer] in *.
    cbn [tokenizer_loads model_loads count_tokenizer_load count_model_load]
      in *.
    destruct m as [m|], t as [t|];
      try (exfalso; apply Hn; do 2 eexists; split; reflexivity);
      rewrite Ht, Hm, Hto; (split; [reflexivity|]);
      do 2 eexists; split; reflexivity. }
  destruct H as [H1 H2]. repeat split; [exact H1 | exact H2|].
  now apply load_model_loaded.
Qed.

Lemma load_model_after_failed_move_witness :
  let E := with_model_to
             (fun _ => Raise (Exception LibraryError (lit "out of memory") None))
             (env (Ok []) (Ok [])) in
  let st' := snd (load_model E (fresh_state [])) in
  fst (load_model E (fresh_state []))
  = Raise (wrap (lit "模型加载失败: ")
                (Exception LibraryError (lit "out of memory") None))
  /\ loaded (self st')
  /\ load_model E st' = (Ok tt, st').
Proof.
  apply (load_model_after_failed_move
           (with_model_to
              (fun _ => Raise (Exception LibraryError (lit "out of memory") None))
              (env (Ok []) (Ok [])))
           (fresh_state [])); try reflexivity.
  intros (m & t & H & _). discriminate H.
Defined.

(** X13.  When the tokenizer loads but the weights do not, [load_model]
    raises and the instance keeps the tokenizer without a model; as the
    instance is then not complete, the next [load_model] loads the
    tokenizer once more. *)
Theorem load_model_reloads_tokenizer (E : Env) (st : State) (cause : exn) :
  model (self st) = None ->
  tokenizer_from_pretrained E (tokenizer_loads (world st)) = Ok tt ->
  model_from_pretrained E (model_loads (world st)) = Raise cause ->
  let st' := snd (load_model E st) in
  fst (load_model E st) = Raise (wrap (lit "模型加载失败: ") cause)
  /\ tokenizer (self st') = Some (S (tokenizer_loads (world st)))
  /\ model (self st') = None
  /\ tokenizer_loads (world (snd (load_model E st')))
     = S (S (tokenizer_loads (world st))).
Proof.
  intros Hn Ht Hm st'.
  assert (H : fst (load_model E st) = Raise (wrap (lit "模型加载失败: ") cause)
              /\ tokenizer (self st') = Some (S (tokenizer_loads (world st)))
              /\ model (self st') = None
              /\ tokenizer_loads (world st') = S (tokenizer_loads (world st))).
  { subst st'. destruct st as [[m t d] w]. cbn [self model] in Hn. subst m.
    cbv beta iota zeta delta
      [load_model bind gets try_except lift set_self modify call ret raise
       self world model tokenizer] in *.
    cbn [tokenizer_loads model_loads count_tokenizer_load count_model_load]
      in *.
    rewrite Ht, Hm. repeat split. }
  destruct H as (H1 & H2 & H3 & H4). repeat split; try assumption.
  rewrite <- H4. clearbody st'. clear - H3.
  destruct st' as [[m t d] w]. cbn [self model] in H3. subst m.
  cbv beta iota zeta delta
    [load_model bind gets try_except lift set_self modify call ret raise
     self world model tokenizer].
  cbn [tokenizer_loads model_loads count_tokenizer_load count_model_load].
  destruct (tokenizer_from_pretrained E _) as [[]|e1]; [|reflexivity].
  destruct (model_from_pretrained E _) as [[]|e2]; [|reflexivity].
  destruct (model_to E _) as [[]|e3]; reflexivity.
Qed.

Lemma load_model_reloads_tokenizer_witness :
  let E := with_model_from_pretrained
             (fun _ => Raise (Exception LibraryError (lit "no weights") None))
             (env (Ok []) (Ok [])) in
  let st' := snd (load_model E (fresh_state [])) in
  fst (load_model E (fresh_state []))
  = Raise (wrap (lit "模型加载失败: ")
                (Exception LibraryError (lit "no weights") None))
  /\ tokenizer (self st') = Some 1%nat
  /\ model (self st') = None
  /\ tokenizer_loads (world (snd (load_model E st'))) = 2%nat.
Proof.
  apply (load_model_reloads_tokenizer
           (with_model_from_pretrained
              (fun _ => Raise (Exception LibraryError (lit "no weights") None))
              (env (Ok []) (Ok [])))
           (fresh_state [])); reflexivity.
Defined.

#[export] Instance only_reads_preorder : PreOrder only_reads.
Proof.
  split.
  - intros w. repeat split.
  - intros a b c (H1 & H2 & H3 & H4 & H5) (K1 & K2 & K3 & K4 & K5).
    repeat split; congruence.
Qed.

#[export] Instance keeps_files_preorder : PreOrder keeps_files.
Proof.
  split.
  - intros st. split; reflexivity.
  - intros a b c [H1 H2] [K1 K2]. split; congruence.
Qed.

Lemma lift_keeps_files {A} (m : M World A) :
  preserves only_reads m -> preserves keeps_files (lift m).
Proof.
  intros Hm st. unfold lift. specialize (Hm (world st)).
  destruct (m (world st)) as [r w]. destruct Hm as (H1 & H2 & _).
  now split.
Qed.

Lemma log_access_only_reads (a : access) :
  preserves only_reads (modify (log_access a)).
Proof. intros w. repeat split. Qed.

Lemma os_path_exists_only_reads (path : str) :
  preserves only_reads (os_path_exists path).
Proof. intros w. reflexivity. Qed.

Lemma log_generate_keeps_files (ids : list N) (kw : GenerateKwargs) :
  preserves keeps_files (lift (modify (log_generate ids kw))).
Proof. intros st. split; reflexivity. Qed.

#[export] Hint Resolve lift_keeps_files log_access_only_reads
  os_path_exists_only_reads log_generate_keeps_files : frame.

Section Pipeline.
Variable E : Env.

Lemma open_read_only_reads (file_path : str) (c : codec) :
  preserves only_reads (FileReader.open_read E file_path c).
Proof.
  intros w. unfold FileReader.open_read.
  destruct (lookup file_path (files w)) as [data|]; [|repeat split].
  destruct (decode (gbk_table E) c data); repeat split.
Qed.

Lemma try_encodings_only_reads (file_path : str) (todo : list codec) :
  preserves only_reads (FileReader.try_encodings E file_path todo).
Proof.
  induction todo as [|c rest IH]; simpl.
  - frame.
  - apply preserves_try_except;
      [typeclasses eauto | apply open_read_only_reads|].
    intros e. destruct (class_of e); auto with frame typeclass_instances.
Qed.

Lemma read_txt_only_reads (file_path : str) :
  preserves only_reads (FileReader._read_txt E file_path).
Proof. apply try_encodings_only_reads. Qed.

(** The readers only read: they leave the files, the signals, the load
    counts and the generation log as they were. *)
Lemma read_file_only_reads (file_path : str) :
  preserves only_reads (FileReader.read_file E file_path).
Proof.
  pose proof read_txt_only_reads.
  unfold FileReader.read_file, FileReader._read_docx, FileReader._read_doc.
  frame.
Qed.

Lemma load_model_keeps_files : preserves keeps_files (load_model E).
Proof.
  intros st. destruct (load_model_frame E st) as (H1 & _ & _ & H4).
  now split.
Qed.

Lemma generate_keeps_files (ids : list N) (kw : GenerateKwargs) :
  preserves keeps_files (generate E ids kw).
Proof. unfold generate. frame. Qed.

Lemma generate_summary_keeps_files text max_len min_len language :
  preserves keeps_files (generate_summary E text max_len min_len language).
Proof.
  pose proof load_model_keeps_files. pose proof generate_keeps_files.
  unfold generate_summary. cbv zeta. frame.
Qed.

Lemma process_file_frame (file_path language : str) (kwargs : SummaryKwargs) :
  preserves keeps_files (process_file E file_path language kwargs).
Proof.
  pose proof read_file_only_reads. pose proof generate_summary_keeps_files.
  unfold process_file. frame.
Qed.


(** X15.  A name that [process_file] returns is safe and final: it holds
    no forbidden character, has at most 200 characters, neither starts
    nor ends with whitespace, and sanitising it again changes nothing. *)
Theorem process_file_returns_safe_name (file_path language : str)
    (kwargs : SummaryKwargs) (st : State) (name : str) :
  fst (process_file E file_path language kwargs st) = Ok name ->
  Forall (fun c => ~ In c FILENAME_SPECIAL_CHARS) name
  /\ (length name <= 200)%nat
  /\ starts_with_space name = false
  /\ ends_with_space name = false
  /\ clean_filename name = name.
Proof.
  unfold process_file, try_except, bind, ret.
  destruct (lift (FileReader.read_file E file_path) st) as [[content|c] st1];
    [|discriminate].
  destruct (generate_summary E content _ _ language st1) as [[s|c] st2];
    [|discriminate].
  cbn [fst]. intros [= <-].
  pose proof (clean_filename_is_safe s) as Hs.
  destruct Hs as [Hc Hsp Hb He Hl] eqn:Hrec. clear Hrec.
  repeat split; try assumption.
  - eapply Forall_impl; [|exact Hc].
    intros c Hns Hin. unfold is_special in Hns.
    assert (existsb (N.eqb c) FILENAME_SPECIAL_CHARS = true); [|congruence].
    apply existsb_exists. exists c. split; [exact Hin | apply N.eqb_refl].
  - apply clean_filename_fixed. now split.
Qed.

(** X16.  When extraction fails, [process_file] raises the wrapped
    exception of the reader and the model is left alone: the instance is
    as it was, nothing is loaded and nothing is generated. *)
Theorem process_file_extraction_failure (file_path language : str)
    (kwargs : SummaryKwargs) (st : State) (cause : exn) :
  fst (FileReader.read_file E file_path (world st)) = Raise cause ->
  let st' := snd (process_file E file_path language kwargs st) in
  fst (process_file E file_path language kwargs st)
  = Raise (wrap (lit "文件处理失败: ") cause)
  /\ self st' = self st
  /\ tokenizer_loads (world st') = tokenizer_loads (world st)
  /\ model_loads (world st') = model_loads (world st)
  /\ generate_calls (world st') = generate_calls (world st).
Proof.
  intros Hr st'. subst st'.
  pose proof (read_file_only_reads file_path (world st)) as Ho.
  unfold process_file, try_except, bind, lift, raise.
  destruct (FileReader.read_file E file_path (world st)) as [r w'].
  cbn [fst snd] in Hr, Ho. subst r. cbn [fst snd self world].
  destruct Ho as (_ & _ & H3 & H4 & H5). now repeat split.
Qed.

End Pipeline.

Lemma process_file_returns_safe_name_witness :
  Forall (fun c => ~ In c FILENAME_SPECIAL_CHARS) (lit "Q3 report final")
  /\ (length (lit "Q3 report final") <= 200)%nat
  /\ starts_with_space (lit "Q3 report final") = false
  /\ ends_with_space (lit "Q3 report final") = false
  /\ clean_filename (lit "Q3 report final") = lit "Q3 report final".
Proof.
  exact (process_file_returns_safe_name
           (env (Ok (lit "<b>Q3</b> report - final!")) (Ok []))
           (lit "/docs/a.txt") (lit "en") no_kwargs (fresh_state two_files)
           (lit "Q3 report final") eq_refl).
Defined.

Lemma process_file_extraction_failure_witness :
  let st := fresh_state [(lit "/old.doc", [])] in
  let st' := snd (process_file (with_stream None) (lit "/old.doc") (lit "en")
                    no_kwargs st) in
  fst (process_file (with_stream None) (lit "/old.doc") (lit "en") no_kwargs st)
  = Raise (wrap (lit "文件处理失败: ")
                (Exception ValueError (lit "文件不是有效的Word文档") None))
  /\ self st' = self st
  /\ tokenizer_loads (world st') = tokenizer_loads (world st)
  /\ model_loads (world st') = model_loads (world st)
  /\ generate_calls (world st') = generate_calls (world st).
Proof.
  exact (process_file_extraction_failure (with_stream None) (lit "/old.doc")
           (lit "en") no_kwargs (fresh_state [(lit "/old.doc", [])]) _ eq_refl).
Defined.

End ProcessorMore.

(* ------------------------------------------------------------------ *)
(** * More about the sanitiser *)
(* ------------------------------------------------------------------ *)

Module SanitizerMore.
Import Py PyFacts Effects TextProcessor Notions MoreNotions Sanitizer.

(** [re.sub] emits only characters of the text and of the replacement. *)
Lemma sub_from_In (p : pattern) (repl : str) (s : str) :
  forall k c, In c (sub_from p repl k s) -> In c repl \/ In c s.
Proof.
  induction s as [|a r IH]; intros k c; [simpl; tauto|].
  destruct k as [|k]; cbn [sub_from].
  - destruct (p (a :: r)) as [[|n]|].
    + intros [->|H]; [right; now left|].
      destruct (IH _ _ H); [now left | right; now right].
    + intros H. apply in_app_or in H as [H|H]; [now left|].
      destruct (IH _ _ H); [now left | right; now right].
    + intros [->|H]; [right; now left|].
      destruct (IH _ _ H); [now left | right; now right].
  - intros H. destruct (IH _ _ H); [now left | right; now right].
Qed.

Lemma In_strip (c : char) (s : str) : In c (strip s) -> In c s.
Proof.
  intros H. destruct (strip_middle s) as (a & b & Hab). rewrite Hab.
  apply in_or_app. right. apply in_or_app. now left.
Qed.

Lemma In_rstrip (c : char) (s : str) : In c (rstrip s) -> In c s.
Proof.
  intros H. destruct (rstrip_prefix s) as (b & Hb). rewrite Hb.
  apply in_or_app. now left.
Qed.

Lemma In_firstn (n : nat) (c : char) (s : str) : In c (firstn n s) -> In c s.
Proof.
  intros H. rewrite <- (firstn_skipn n s). apply in_or_app. now left.
Qed.

(** X17.  [clean_filename] invents no character: every character of its
    output is a character of the input or the space that replaces a run
    of hyphens and whitespace. *)
Theorem clean_filename_characters (text : str) (c : char) :
  In c (clean_filename text) -> c = 0x20 \/ In c text.
Proof.
  assert (H : forall c, In c (strip (re_sub consecutive_spaces_pattern [0x20]
                          (re_sub special_chars_pattern []
                             (re_sub re_tag [] text)))) ->
                        c = 0x20 \/ In c text).
  { intros d Hd. apply In_strip in Hd. unfold re_sub in Hd.
    apply sub_from_In in Hd as [[<-|[]]|Hd]; [now left|].
    apply sub_from_In in Hd as [[]|Hd].
    apply sub_from_In in Hd as [[]|Hd]. now right. }
  unfold clean_filename. cbv zeta.
  destruct (MAX_FILENAME_LENGTH <? _)%nat.
  - intros Hc. apply In_rstrip, In_firstn in Hc. now apply H.
  - apply H.
Qed.

Lemma clean_filename_characters_witness :
  0x41 = 0x20 \/ In 0x41 (lit " - A.txt").
Proof.
  apply (clean_filename_characters (lit " - A.txt") 0x41).
  vm_compute. tauto.
Defined.

(** X18.  In the output of [clean_filename] the words are separated by
    single spaces: every hyphen or whitespace character of the output is
    the space U+0020, and the character after it is neither a hyphen nor
    whitespace. *)
Theorem clean_filename_single_spaces (text : str) :
  separated is_hyphen_or_space 0x20 (clean_filename text)
  /\ Forall (fun c => isspace c = true -> c = 0x20) (clean_filename text).
Proof.
  destruct (clean_filename_is_safe text) as [_ Hs _ _ _].
  assert (Hsep : forall s, spaced s -> separated is_hyphen_or_space 0x20 s).
  { induction s as [|c r IH]; [auto|].
    intros [Hc Hr]. split; [|auto].
    intros H. destruct (Hc H) as [-> Hn]. split; [reflexivity|].
    destruct r; [exact I | exact Hn]. }
  split; [now apply Hsep|].
  eapply Forall_impl; [|exact (spaced_separators _ Hs)].
  intros c H Hsp. apply H. unfold is_hyphen_or_space. rewrite Hsp.
  apply orb_true_r.
Qed.

Lemma squeeze_all (f : char -> bool) (x : char) (s : str) :
  Forall (fun c => f c = true) s -> squeeze f x s = [] \/ squeeze f x s = [x].
Proof.
  induction 1 as [|c r Hc Hr IH]; [now left|].
  simpl. rewrite Hc. destruct r as [|d r']; [now right|].
  inversion Hr as [|? ? Hd _]; subst. now rewrite Hd.
Qed.

(** X19.  A text made only of forbidden characters, hyphens and
    whitespace, the empty text included, is sanitised to the empty
    text. *)
Theorem clean_filename_nothing_left (text : str) :
  Forall (fun c => is_special c = true \/ is_hyphen_or_space c = true) text ->
  clean_filename text = [].
Proof.
  intros H.
  assert (Hc : collapsed text = []).
  { unfold collapsed.
    assert (Hs : Forall (fun c => is_hyphen_or_space c = true)
                   (filter (fun c => negb (is_special c))
                           (re_sub re_tag [] text))).
    { apply Forall_forall. intros c Hin.
      apply filter_In in Hin as [Hin Hns]. apply negb_true_iff in Hns.
      unfold re_sub in Hin. apply sub_from_In in Hin as [[]|Hin].
      rewrite Forall_forall in H. destruct (H c Hin); congruence. }
    destruct (squeeze_all _ 0x20 _ Hs) as [-> | ->]; reflexivity. }
  rewrite clean_filename_unfold, Hc. reflexivity.
Qed.

Lemma clean_filename_nothing_left_witness :
  clean_filename (lit " - <?> ... ！") = [].
Proof.
  apply clean_filename_nothing_left.
  let l := eval vm_compute in (lit " - <?> ... ！") in
  change (lit " - <?> ... ！") with l.
  repeat (apply Forall_cons;
          [first [left; reflexivity | right; reflexivity]|]).
  apply Forall_nil.
Defined.

(** X20.  The texts that [clean_filename] leaves unchanged are exactly
    the safe ones: no forbidden character, every hyphen or whitespace
    character a single space between two other characters, and at most
    200 characters. *)
Theorem clean_filename_fixed_points (s : str) :
  clean_filename s = s <-> safe s.
Proof.
  split.
  - intros H. rewrite <- H. apply clean_filename_is_safe.
  - apply clean_filename_fixed.
Qed.

Lemma run_length_app (f : char -> bool) (body : str) (c : char) (rest : str) :
  Forall (fun x => f x = true) body -> f c = false ->
  run_length f (body ++ c :: rest) = length body.
Proof.
  induction 1 as [|b body Hb _ IH]; intros Hc; simpl.
  - now rewrite Hc.
  - now rewrite Hb, IH.
Qed.

Lemma re_sub_tag_prefix (a rest : str) :
  Forall (fun c => c <> 0x3C) a ->
  re_sub re_tag [] (a ++ rest) = a ++ re_sub re_tag [] rest.
Proof.
  induction 1 as [|c r Hc _ IH]; [reflexivity|].
  cbn [app]. rewrite re_sub_cons. cbn [re_tag].
  apply N.eqb_neq in Hc. now rewrite Hc, IH.
Qed.

Lemma skipn_past (p s : str) (k : nat) :
  skipn (length p + k) (p ++ s) = skipn k s.
Proof. induction p as [|c p IH]; [reflexivity | exact IH]. Qed.

(** X21.  A complete markup tag, an opening bracket, at least one
    character other than the closing bracket, and the closing bracket,
    is removed with everything in it: the sanitised name is the same as
    if the tag had not been there.  Here the text before the tag holds
    no opening bracket. *)
Theorem clean_filename_drops_tag (a body rest : str) :
  Forall (fun c => c <> 0x3C) a ->
  body <> [] ->
  Forall (fun c => c <> 0x3E) body ->
  clean_filename (a ++ [0x3C] ++ body ++ [0x3E] ++ rest)
  = clean_filename (a ++ rest).
Proof.
  intros Ha Hne Hb.
  assert (H : re_sub re_tag [] (a ++ [0x3C] ++ body ++ [0x3E] ++ rest)
              = re_sub re_tag [] (a ++ rest)).
  { rewrite (re_sub_tag_prefix a rest Ha).
    rewrite (re_sub_tag_prefix a _ Ha). f_equal.
    cbn [app]. rewrite re_sub_cons. cbn [re_tag]. rewrite N.eqb_refl.
    rewrite run_length_app;
      [| eapply Forall_impl; [|exact Hb]; intros c Hc;
         now apply negb_true_iff, N.eqb_neq
       | reflexivity].
    destruct body as [|b body]; [contradiction|].
    cbn [length].
    replace (skipn (S (length body)) ((b :: body) ++ 0x3E :: rest))
      with (0x3E :: rest)
      by (rewrite <- (Nat.add_0_r (S (length body)));
          now rewrite (skipn_past (b :: body))).
    cbv iota. cbn [app].
    replace (S (length body)) with (length body + 1)%nat by lia.
    cbn [skipn app]. now rewrite skipn_past. }
  unfold clean_filename. now rewrite H.
Qed.

Lemma clean_filename_drops_tag_witness :
  clean_filename (lit "Annual " ++ [0x3C] ++ lit "br/" ++ [0x3E] ++ lit "report")
  = clean_filename (lit "Annual " ++ lit "report").
Proof.
  apply (clean_filename_drops_tag (lit "Annual ") (lit "br/") (lit "report")).
  - let l := eval vm_compute in (lit "Annual ") in
    change (lit "Annual ") with l.
    repeat (apply Forall_cons; [discriminate|]). apply Forall_nil.
  - discriminate.
  - let l := eval vm_compute in (lit "br/") in change (lit "br/") with l.
    repeat (apply Forall_cons; [discriminate|]). apply Forall_nil.
Defined.

End SanitizerMore.

(* ------------------------------------------------------------------ *)
(** * The batch loop *)
(* ------------------------------------------------------------------ *)

Module BatchFacts.
Import Py PyFacts Effects TextProcessor FileProcessingThread Stub Notions
  MoreNotions Frame ReaderMore ProcessorMore.

Lemma lookup_remove_same (p : str) (fs : list (str * bytes)) :
  lookup p (remove p fs) = None.
Proof.
  induction fs as [|[q d] fs IH]; [reflexivity|].
  simpl. destruct (str_eqb q p) eqn:Hq; [exact IH|].
  simpl. now rewrite Hq.
Qed.

Lemma lookup_remove_other (p q : str) (fs : list (str * bytes)) :
  p <> q -> lookup p (remove q fs) = lookup p fs.
Proof.
  intros Hpq. induction fs as [|[r d] fs IH]; [reflexivity|].
  simpl. destruct (str_eqb r q) eqn:Hq.
  - apply str_eqb_eq in Hq. subst r.
    rewrite (str_eqb_neq q p) by congruence. exact IH.
  - simpl. now rewrite IH.
Qed.

Section WithEnv.
Variable E : Env.

(** One turn of the loop, case by case. *)
Lemma run_one_cases (index : nat) (file_path : str) (success_count : nat)
    (w : World) :
  run_one E index file_path success_count w =
  let w2 := world (snd (processed E file_path w)) in
  let report outcome :=
    log_signal (progress_updated (index + 1) (basename file_path) outcome) in
  match fst (processed E file_path w) with
  | Ok new_name =>
    match lookup (target_of file_path new_name) (files w2) with
    | Some _ =>
      (Ok success_count,
       report (lit "错误: " ++ lit "文件 " ++ new_name_of file_path new_name
                 ++ lit " 已存在") w2)
    | None =>
      match lookup file_path (files w2) with
      | Some data =>
        (Ok (S success_count),
         report (new_name_of file_path new_name)
           (set_files ((target_of file_path new_name, data)
                         :: remove (target_of file_path new_name)
                              (remove file_path (files w2))) w2))
      | None =>
        (Ok success_count,
         report (lit "错误: " ++ lit "[Errno 2] No such file or directory: "
                   ++ repr file_path ++ lit " -> "
                   ++ repr (target_of file_path new_name))
                w2)
      end
    end
  | Raise e => (Ok success_count, report (lit "错误: " ++ str_of e) w2)
  end.
Proof.
  unfold run_one, processed, target_of, new_name_of, try_except, bind,
    with_processor, os_path_exists, os_rename, gets, emit, modify, raise, ret.
  cbv zeta.
  destruct (process_file E file_path (lit "en") no_kwargs _) as [[name|e] st2];
    cbn [fst snd]; [|reflexivity].
  destruct (lookup _ (files (world st2))); [reflexivity|].
  destruct (lookup file_path (files (world st2))); reflexivity.
Qed.

(** What [process_file] leaves of the world for the rest of the turn. *)
Lemma processed_world (file_path : str) (w : World) :
  files (world (snd (processed E file_path w))) = files w
  /\ emitted (world (snd (processed E file_path w))) = emitted w.
Proof.
  exact (process_file_frame E file_path (lit "en") no_kwargs
           {| self := init; world := w |}).
Qed.

(** One turn returns normally, counts the file or not, and emits one
    progress signal. *)
Lemma run_one_reports (index : nat) (file_path : str) (success_count : nat)
    (w : World) :
  exists outcome,
    (fst (run_one E index file_path success_count w) = Ok success_count
     \/ fst (run_one E index file_path success_count w) = Ok (S success_count))
    /\ emitted (snd (run_one E index file_path success_count w))
       = progress_updated (index + 1) (basename file_path) outcome :: emitted w.
Proof.
  destruct (processed_world file_path w) as [_ Hem].
  rewrite run_one_cases. cbv zeta.
  destruct (fst (processed E file_path w)) as [name|e].
  - destruct (lookup (target_of file_path name) _).
    + eexists. split; [now left|]. cbn. now rewrite Hem.
    + destruct (lookup file_path _).
      * eexists. split; [now right|]. cbn. now rewrite Hem.
      * eexists. split; [now left|]. cbn. now rewrite Hem.
  - eexists. split; [now left|]. cbn. now rewrite Hem.
Qed.

Lemma run_from_reports (file_paths : list str) :
  forall index success_count w,
  exists outcomes succeeded,
    fst (run_from E index file_paths success_count w) = Ok succeeded
    /\ length outcomes = length file_paths
    /\ (success_count <= succeeded <= success_count + length file_paths)%nat
    /\ emitted (snd (run_from E index file_paths success_count w))
       = rev (progress_list index file_paths outcomes) ++ emitted w.
Proof.
  induction file_paths as [|p rest IH]; intros index s w.
  - exists [], s. cbn. repeat split; lia.
  - destruct (run_one_reports index p s w) as (o & Hs & Hem).
    cbn [run_from]. unfold bind.
    destruct (run_one E index p s w) as [[s1|e] w1]; cbn [fst snd] in Hs, Hem;
      [|destruct Hs; discriminate].
    destruct (IH (S index) s1 w1) as (os & s2 & H1 & H2 & H3 & H4).
    exists (o :: os), s2. rewrite H1, H4, Hem. cbn [length progress_list rev].
    repeat split; try lia.
    + destruct Hs as [[= ->]|[= ->]]; lia.
    + destruct Hs as [[= ->]|[= ->]]; lia.
    + now rewrite <- app_assoc.
Qed.

(** X22.  [run] never raises, whatever happens to the files: every file
    of the batch gets exactly one progress signal, numbered from 1 in the
    order of the batch and carrying its base name, and after them one
    completion signal whose two counts add up to the number of files. *)
Theorem run_reports_every_file (file_paths : list str) (w : World) :
  exists outcomes succeeded,
    fst (run E file_paths w) = Ok tt
    /\ length outcomes = length file_paths
    /\ (succeeded <= length file_paths)%nat
    /\ emitted (snd (run E file_paths w))
       = processing_completed succeeded (length file_paths - succeeded)
           :: rev (progress_list 0 file_paths outcomes) ++ emitted w.
Proof.
  destruct (run_from_reports file_paths 0 0 w) as (os & s & H1 & H2 & H3 & H4).
  exists os, s. unfold run, bind, emit, modify. cbv zeta.
  destruct (run_from E 0 file_paths 0 w) as [[s'|e] w']; cbn [fst snd] in *;
    [|discriminate].
  injection H1 as ->. repeat split; try lia. cbn. now rewrite H4.
Qed.

(** X23.  One turn of the batch loop either leaves the files as they
    were or renames the file it was given: the content is then found
    under the new path, which did not exist before, no longer under the
    old one, and every other path holds what it held. *)
Theorem run_one_renames_or_keeps (index : nat) (file_path : str)
    (success_count : nat) (w : World) :
  let w' := snd (run_one E index file_path success_count w) in
  files w' = files w
  \/ exists data target,
       lookup file_path (files w) = Some data
       /\ lookup target (files w) = None
       /\ lookup target (files w') = Some data
       /\ lookup file_path (files w') = None
       /\ forall p, p <> file_path -> p <> target ->
                    lookup p (files w') = lookup p (files w).
Proof.
  destruct (processed_world file_path w) as [Hf _].
  cbv zeta. rewrite run_one_cases. cbv zeta.
  destruct (fst (processed E file_path w)) as [name|e]; [|now left].
  destruct (lookup (target_of file_path name) _) eqn:Ht; [now left|].
  destruct (lookup file_path _) as [data|] eqn:Hp; [|now left].
  right. exists data, (target_of file_path name).
  rewrite Hf in Ht, Hp.
  assert (Hne : file_path <> target_of file_path name) by congruence.
  cbn [snd files log_signal set_files]. rewrite Hf.
  repeat split; try assumption.
  - cbn [lookup]. now rewrite (proj2 (str_eqb_eq _ _) eq_refl).
  - cbn [lookup]. rewrite str_eqb_neq by congruence.
    rewrite lookup_remove_other by exact Hne. apply lookup_remove_same.
  - intros p H1 H2. cbn [lookup]. rewrite str_eqb_neq by congruence.
    now rewrite !lookup_remove_other by assumption.
Qed.

End WithEnv.

End BatchFacts.

(* ------------------------------------------------------------------ *)
(** * The window: the file queue and the result list *)
(* ------------------------------------------------------------------ *)

Module WindowFacts.
Import Py PyFacts Effects TextProcessor FileProcessingThread Stub Notions
  MoreNotions ReaderMore ProcessorMore Sanitizer BatchFacts SummlyApp.











Lemma startswith_In (s p : str) :
  startswith s p = true -> forall c, In c p -> In c s.
Proof.
  revert s. induction p as [|x p IH]; intros s H c Hc; [destruct Hc|].
  destruct s as [|y s]; [discriminate|].
  cbn in H. apply andb_true_iff in H as [Hxy Hp].
  apply N.eqb_eq in Hxy. subst y.
  destruct Hc as [->|Hc]; [now left | right; now apply (IH s)].
Qed.

(** A name that [process_file] returns comes out of the sanitiser, and
    the file it was made for has one of the three suffixes. *)
Lemma process_file_ok (E : Env) (file_path language : str)
    (kwargs : SummaryKwargs) (st : State) (name : str) :
  fst (process_file E file_path language kwargs st) = Ok name ->
  (exists s, name = clean_filename s)
  /\ (lower (path_suffix file_path) = lit ".txt"
      \/ lower (path_suffix file_path) = lit ".docx"
      \/ lower (path_suffix file_path) = lit ".doc").
Proof.
  unfold process_file, try_except, bind, ret, lift.
  destruct (FileReader.read_file E file_path (world st)) as [[content|c] w1]
    eqn:Hread; [|discriminate].
  destruct (generate_summary E content _ _ language _) as [[s|c] st2];
    [|discriminate].
  cbn [fst]. intros [= <-]. split; [now exists s|].
  revert Hread.
  unfold FileReader.read_file, bind, os_path_exists, gets, raise.
  destruct (lookup file_path (files (world st))); cbn [negb]; [|discriminate].
  cbv zeta.
  destruct (str_eqb _ (lit ".txt")) eqn:H1;
    [left; now apply str_eqb_eq|].
  destruct (str_eqb _ (lit ".docx")) eqn:H2;
    [right; left; now apply str_eqb_eq|].
  destruct (str_eqb _ (lit ".doc")) eqn:H3;
    [right; right; now apply str_eqb_eq|].
  discriminate.
Qed.

(** The name given to a processed file never starts with the error mark:
    it holds no colon. *)
Lemma new_name_is_no_error (E : Env) (file_path : str) (w : World) (name : str) :
  fst (processed E file_path w) = Ok name ->
  startswith (new_name_of file_path name) (lit "错误:") = false.
Proof.
  intros H. apply process_file_ok in H as [[s ->] Hsuf].
  destruct (startswith _ _) eqn:Hs; [exfalso|reflexivity].
  assert (Hin : In 0x3A (new_name_of file_path (clean_filename s))).
  { apply (startswith_In _ _ Hs). vm_compute. tauto. }
  unfold new_name_of in Hin. apply in_app_or in Hin as [Hin|Hin].
  - destruct (clean_filename_is_safe s) as [Hc _ _ _ _].
    rewrite Forall_forall in Hc. specialize (Hc _ Hin). discriminate Hc.
  - destruct Hsuf as [Hx|[Hx|Hx]]; rewrite Hx in Hin; vm_compute in Hin;
      intuition discriminate.
Qed.

(** X27.  The row of a file is shown in red exactly when the file was
    not counted as a success: the outcome of a failed file starts with
    the error mark, and the name given to a renamed file never does. *)
Theorem failures_are_shown_red (E : Env) (index : nat) (file_path : str)
    (success_count : nat) (w : World) :
  exists outcome,
    emitted (snd (run_one E index file_path success_count w))
    = progress_updated (index + 1) (basename file_path) outcome :: emitted w
    /\ ((fst (run_one E index file_path success_count w) = Ok (S success_count)
         /\ foreground (shown_item outcome) = Some white)
        \/ (fst (run_one E index file_path success_count w) = Ok success_count
            /\ foreground (shown_item outcome) = Some red)).
Proof.
  destruct (processed_world E file_path w) as [_ Hem].
  rewrite run_one_cases. cbv zeta.
  destruct (fst (processed E file_path w)) as [name|e] eqn:Hp.
  - destruct (lookup (target_of file_path name) _).
    + eexists. split; [cbn; now rewrite Hem|]. right. now split.
    + destruct (lookup file_path _).
      * eexists. split; [cbn; now rewrite Hem|]. left. split; [reflexivity|].
        unfold shown_item. cbn [foreground].
        now rewrite (new_name_is_no_error E file_path w name Hp).
      * eexists. split; [cbn; now rewrite Hem|]. right. now split.
  - eexists. split; [cbn; now rewrite Hem|]. right. now split.
Qed.

End WindowFacts.
